(** * http-response-collector: the fetch-and-classify pipeline of main.go

    A shallow embedding of [main.go] (the Pub/Sub push handler, the fetcher,
    the URL check and the error publisher) together with the parts of the Go
    standard library whose behaviour the handler's decisions depend on.

    Conventions.
    - A Go [string] and a Go [[]byte] are both sequences of bytes; they are
      modelled by [string] (a list of 8-bit [ascii]), so the conversions
      [string(b)] and [[]byte(s)] are the identity.
    - Go [int], [int64] are modelled by [Z]; the only arithmetic on them is
      the difference of two clock readings, which saturates.
    - Go maps are stdpp [gmap]s.
    - A Go function returning [(T, error)] returns a [result T].
    - What the handler does to the outside (log lines, messages to the
      topic, the outbound request, the status written to the inbound call)
      is recorded in a trace; what the outside answers is given by a
      [World]. *)

From stdpp Require Import base option list gmap strings pretty sorting.
From Stdlib Require Import ZArith Lia Ascii.

Local Open Scope Z_scope.

(** ** Errors and results *)

(** Go [error] values.  Only their origin is kept; the handler never inspects
    an error, it only tests it against [nil] and logs it. *)
Inductive error : Type :=
| SyntaxError (msg : string)
| CorruptInputError
| UnmarshalTypeError (msg : string)
| UrlError (msg : string)
| TransportError (msg : string)
| ReadError (msg : string)
| PubSubError (msg : string).

Inductive result (A : Type) : Type :=
| Ok (a : A)
| Err (e : error).
Arguments Ok {A} a.
Arguments Err {A} e.

Definition is_ok {A} (r : result A) : bool :=
  match r with Ok _ => true | Err _ => false end.

(** ** Bytes *)

Definition byte_val (c : ascii) : Z := Z.of_N (N_of_ascii c).
Definition byte_of (z : Z) : ascii := ascii_of_N (Z.to_N (z mod 256)).

Definition in_range (lo hi c : ascii) : bool :=
  (byte_val lo <=? byte_val c) && (byte_val c <=? byte_val hi).

(** The double quote character, and a helper that turns every apostrophe of
    a literal into a double quote, so that JSON texts can be written down
    readably. *)
Definition dquote : ascii := "034"%char.

Fixpoint js (s : string) : string :=
  match s with
  | EmptyString => EmptyString
  | String c r => String (if Ascii.eqb c "'"%char then dquote else c) (js r)
  end.

(** ** package strings *)

(** [strings.HasPrefix(s, prefix)]:
    [len(s) >= len(prefix) && s[:len(prefix)] == prefix]. *)
Fixpoint strings_HasPrefix (s pre : string) {struct pre} : bool :=
  match pre with
  | EmptyString => true
  | String p pre' =>
      match s with
      | EmptyString => false
      | String c s' => Ascii.eqb c p && strings_HasPrefix s' pre'
      end
  end.

(** [strings.Join(elems, sep)]. *)
Fixpoint strings_Join (elems : list string) (sep : string) : string :=
  match elems with
  | [] => EmptyString
  | [x] => x
  | x :: xs => x +:+ sep +:+ strings_Join xs sep
  end.

(** ** package encoding/base64: [StdEncoding.DecodeString]

    The standard alphabet, with padding, not strict.  Line feeds and carriage
    returns are skipped wherever they occur. *)

Definition decodeMap (c : ascii) : option Z :=
  if in_range "A" "Z" c then Some (byte_val c - 65)
  else if in_range "a" "z" c then Some (byte_val c - 97 + 26)
  else if in_range "0" "9" c then Some (byte_val c - 48 + 52)
  else if Ascii.eqb c "+" then Some 62
  else if Ascii.eqb c "/" then Some 63
  else None.

Definition is_newline (c : ascii) : bool :=
  Ascii.eqb c "010" || Ascii.eqb c "013".

Definition padChar : ascii := "="%char.

Fixpoint skip_newlines (src : string) : string :=
  match src with
  | String c r => if is_newline c then skip_newlines r else src
  | EmptyString => EmptyString
  end.

(** The 24-bit value of a quantum of (up to four) 6-bit digits, and the
    first [n] of its three bytes. *)
Definition quantum_val (dbuf : list Z) : Z :=
  Z.lor (Z.lor (Z.lor (Z.shiftl (nth 0 dbuf 0) 18) (Z.shiftl (nth 1 dbuf 0) 12))
               (Z.shiftl (nth 2 dbuf 0) 6))
        (nth 3 dbuf 0).

Definition quantum_bytes (dbuf : list Z) (n : nat) : string :=
  let val := quantum_val dbuf in
  String.string_of_list_ascii
    (take n [byte_of (Z.shiftr val 16); byte_of (Z.shiftr val 8); byte_of val]).

(** [Decode]: the loop over [decodeQuantum].  [dbuf] holds the digits of the
    quantum being read (in order), [dst] the bytes produced so far (reversed
    chunks are avoided by appending). *)
Fixpoint base64_decode (src : string) (dbuf : list Z) (dst : string)
  : result string :=
  match src with
  | EmptyString =>
      match dbuf with
      | [] => Ok dst
      | _ => Err CorruptInputError
      end
  | String c rest =>
      match decodeMap c with
      | Some out =>
          let dbuf' := dbuf ++ [out] in
          if (length dbuf' =? 4)%nat
          then base64_decode rest [] (dst +:+ quantum_bytes dbuf' 3)
          else base64_decode rest dbuf' dst
      | None =>
          if is_newline c then base64_decode rest dbuf dst
          else if negb (Ascii.eqb c padChar) then Err CorruptInputError
          else
            match length dbuf with
            | 0%nat | 1%nat => Err CorruptInputError
            | 2%nat =>
                match skip_newlines rest with
                | EmptyString => Err CorruptInputError
                | String c2 rest2 =>
                    if negb (Ascii.eqb c2 padChar) then Err CorruptInputError
                    else
                      match skip_newlines rest2 with
                      | EmptyString => Ok (dst +:+ quantum_bytes dbuf 1)
                      | String _ _ => Err CorruptInputError
                      end
                end
            | _ =>
                match skip_newlines rest with
                | EmptyString => Ok (dst +:+ quantum_bytes dbuf 2)
                | String _ _ => Err CorruptInputError
                end
            end
      end
  end.

Definition base64_DecodeString (s : string) : result string :=
  base64_decode s [] EmptyString.

(** ** package encoding/json: the scanner behind [json.Valid]

    The scanner is a state machine fed one byte at a time.  [step] is the
    current state function, [parseState] the stack of enclosing composite
    values (innermost first), [err] the recorded syntax error and [endTop]
    tells that the top-level value is complete. *)

Inductive stepfn : Type :=
| stateBeginValueOrEmpty | stateBeginValue | stateBeginStringOrEmpty
| stateBeginString | stateEndValue | stateEndTop
| stateInString | stateInStringEsc | stateInStringEscU | stateInStringEscU1
| stateInStringEscU12 | stateInStringEscU123
| stateNeg | state1 | state0 | stateDot | stateDot0 | stateE | stateESign
| stateE0
| stateT | stateTr | stateTru | stateF | stateFa | stateFal | stateFals
| stateN | stateNu | stateNul
| stateError.

Inductive parse_state : Type := parseObjectKey | parseObjectValue | parseArrayValue.

Inductive scan_code : Type :=
| scanContinue | scanBeginLiteral | scanBeginObject | scanObjectKey
| scanObjectValue | scanEndObject | scanBeginArray | scanArrayValue
| scanEndArray | scanSkipSpace | scanEnd | scanError.

Record scanner : Type := mkScanner {
  step : stepfn;
  endTop : bool;
  parseState : list parse_state;
  err : option error;
}.

Definition maxNestingDepth : Z := 10000.

Definition set_step (s : scanner) (f : stepfn) : scanner :=
  mkScanner f (endTop s) (parseState s) (err s).

Definition scanner_reset : scanner := mkScanner stateBeginValue false [] None.

(** [s.error(c, context)] *)
Definition scanner_error (s : scanner) (c : ascii) (context : string)
  : scan_code * scanner :=
  (scanError,
   mkScanner stateError (endTop s) (parseState s)
     (Some (SyntaxError ("invalid character " +:+ context)))).

(** [s.pushParseState(c, newParseState, successState)] *)
Definition pushParseState (s : scanner) (c : ascii) (newParseState : parse_state)
    (successState : scan_code) : scan_code * scanner :=
  let s' := mkScanner (step s) (endTop s) (newParseState :: parseState s) (err s) in
  if Z.of_nat (length (parseState s')) <=? maxNestingDepth
  then (successState, s')
  else scanner_error s' c "exceeded max depth".

(** [s.popParseState()] *)
Definition popParseState (s : scanner) : scanner :=
  let ps := tail (parseState s) in
  match ps with
  | [] => mkScanner stateEndTop true ps (err s)
  | _ => mkScanner stateEndValue (endTop s) ps (err s)
  end.

(** Overwrites the innermost entry of the stack: [s.parseState[n-1] = p]. *)
Definition set_top (s : scanner) (p : parse_state) : scanner :=
  mkScanner (step s) (endTop s) (p :: tail (parseState s)) (err s).

Definition isSpace (c : ascii) : bool :=
  Ascii.eqb c " " || Ascii.eqb c "009" || Ascii.eqb c "013" || Ascii.eqb c "010".

Definition isDigit (c : ascii) : bool := in_range "0" "9" c.
Definition isDigit19 (c : ascii) : bool := in_range "1" "9" c.
Definition isHex (c : ascii) : bool :=
  in_range "0" "9" c || in_range "a" "f" c || in_range "A" "F" c.

Definition do_stateEndTop (s : scanner) (c : ascii) : scan_code * scanner :=
  if negb (isSpace c)
  then (scanEnd, snd (scanner_error s c "after top-level value"))
  else (scanEnd, s).

Definition do_stateEndValue (s : scanner) (c : ascii) : scan_code * scanner :=
  match parseState s with
  | [] => do_stateEndTop (mkScanner stateEndTop true (parseState s) (err s)) c
  | ps :: _ =>
      if isSpace c then (scanSkipSpace, set_step s stateEndValue)
      else
        match ps with
        | parseObjectKey =>
            if Ascii.eqb c ":"
            then (scanObjectKey, set_step (set_top s parseObjectValue) stateBeginValue)
            else scanner_error s c "after object key"
        | parseObjectValue =>
            if Ascii.eqb c ","
            then (scanObjectValue, set_step (set_top s parseObjectKey) stateBeginString)
            else if Ascii.eqb c "}" then (scanEndObject, popParseState s)
            else scanner_error s c "after object key:value pair"
        | parseArrayValue =>
            if Ascii.eqb c ","
            then (scanArrayValue, set_step s stateBeginValue)
            else if Ascii.eqb c "]" then (scanEndArray, popParseState s)
            else scanner_error s c "after array element"
        end
  end.

Definition do_stateBeginValue (s : scanner) (c : ascii) : scan_code * scanner :=
  if isSpace c then (scanSkipSpace, s)
  else if Ascii.eqb c "{"
  then pushParseState (set_step s stateBeginStringOrEmpty) c parseObjectKey scanBeginObject
  else if Ascii.eqb c "["
  then pushParseState (set_step s stateBeginValueOrEmpty) c parseArrayValue scanBeginArray
  else if Ascii.eqb c dquote then (scanBeginLiteral, set_step s stateInString)
  else if Ascii.eqb c "-" then (scanBeginLiteral, set_step s stateNeg)
  else if Ascii.eqb c "0" then (scanBeginLiteral, set_step s state0)
  else if Ascii.eqb c "t" then (scanBeginLiteral, set_step s stateT)
  else if Ascii.eqb c "f" then (scanBeginLiteral, set_step s stateF)
  else if Ascii.eqb c "n" then (scanBeginLiteral, set_step s stateN)
  else if isDigit19 c then (scanBeginLiteral, set_step s state1)
  else scanner_error s c "looking for beginning of value".

Definition do_stateBeginValueOrEmpty (s : scanner) (c : ascii) : scan_code * scanner :=
  if isSpace c then (scanSkipSpace, s)
  else if Ascii.eqb c "]" then do_stateEndValue s c
  else do_stateBeginValue s c.

Definition do_stateBeginString (s : scanner) (c : ascii) : scan_code * scanner :=
  if isSpace c then (scanSkipSpace, s)
  else if Ascii.eqb c dquote then (scanBeginLiteral, set_step s stateInString)
  else scanner_error s c "looking for beginning of object key string".

Definition do_stateBeginStringOrEmpty (s : scanner) (c : ascii) : scan_code * scanner :=
  if isSpace c then (scanSkipSpace, s)
  else if Ascii.eqb c "}" then do_stateEndValue (set_top s parseObjectValue) c
  else do_stateBeginString s c.

Definition do_stateInString (s : scanner) (c : ascii) : scan_code * scanner :=
  if Ascii.eqb c dquote then (scanContinue, set_step s stateEndValue)
  else if Ascii.eqb c "\" then (scanContinue, set_step s stateInStringEsc)
  else if byte_val c <? 32 then scanner_error s c "in string literal"
  else (scanContinue, s).

Definition do_stateInStringEsc (s : scanner) (c : ascii) : scan_code * scanner :=
  if Ascii.eqb c "b" || Ascii.eqb c "f" || Ascii.eqb c "n" || Ascii.eqb c "r"
     || Ascii.eqb c "t" || Ascii.eqb c "\" || Ascii.eqb c "/" || Ascii.eqb c dquote
  then (scanContinue, set_step s stateInString)
  else if Ascii.eqb c "u" then (scanContinue, set_step s stateInStringEscU)
  else scanner_error s c "in string escape code".

(** The four states reading the hexadecimal digits of a [\u] escape. *)
Definition do_hex (next : stepfn) (s : scanner) (c : ascii) : scan_code * scanner :=
  if isHex c then (scanContinue, set_step s next)
  else scanner_error s c "in \u hexadecimal character escape".

Definition do_stateNeg (s : scanner) (c : ascii) : scan_code * scanner :=
  if Ascii.eqb c "0" then (scanContinue, set_step s state0)
  else if isDigit19 c then (scanContinue, set_step s state1)
  else scanner_error s c "in numeric literal".

Definition do_state0 (s : scanner) (c : ascii) : scan_code * scanner :=
  if Ascii.eqb c "." then (scanContinue, set_step s stateDot)
  else if Ascii.eqb c "e" || Ascii.eqb c "E" then (scanContinue, set_step s stateE)
  else do_stateEndValue s c.

Definition do_state1 (s : scanner) (c : ascii) : scan_code * scanner :=
  if isDigit c then (scanContinue, set_step s state1)
  else do_state0 s c.

Definition do_stateDot (s : scanner) (c : ascii) : scan_code * scanner :=
  if isDigit c then (scanContinue, set_step s stateDot0)
  else scanner_error s c "after decimal point in numeric literal".

Definition do_stateDot0 (s : scanner) (c : ascii) : scan_code * scanner :=
  if isDigit c then (scanContinue, s)
  else if Ascii.eqb c "e" || Ascii.eqb c "E" then (scanContinue, set_step s stateE)
  else do_stateEndValue s c.

Definition do_stateESign (s : scanner) (c : ascii) : scan_code * scanner :=
  if isDigit c then (scanContinue, set_step s stateE0)
  else scanner_error s c "in exponent of numeric literal".

Definition do_stateE (s : scanner) (c : ascii) : scan_code * scanner :=
  if Ascii.eqb c "+" || Ascii.eqb c "-" then (scanContinue, set_step s stateESign)
  else do_stateESign s c.

Definition do_stateE0 (s : scanner) (c : ascii) : scan_code * scanner :=
  if isDigit c then (scanContinue, s)
  else do_stateEndValue s c.

(** The states spelling out [true], [false] and [null]: the byte [want]
    leads to [next]. *)
Definition do_lit (want : ascii) (next : stepfn) (context : string)
    (s : scanner) (c : ascii) : scan_code * scanner :=
  if Ascii.eqb c want then (scanContinue, set_step s next)
  else scanner_error s c context.

(** [s.step(s, c)] *)
Definition scanner_step (s : scanner) (c : ascii) : scan_code * scanner :=
  match step s with
  | stateBeginValueOrEmpty => do_stateBeginValueOrEmpty s c
  | stateBeginValue => do_stateBeginValue s c
  | stateBeginStringOrEmpty => do_stateBeginStringOrEmpty s c
  | stateBeginString => do_stateBeginString s c
  | stateEndValue => do_stateEndValue s c
  | stateEndTop => do_stateEndTop s c
  | stateInString => do_stateInString s c
  | stateInStringEsc => do_stateInStringEsc s c
  | stateInStringEscU => do_hex stateInStringEscU1 s c
  | stateInStringEscU1 => do_hex stateInStringEscU12 s c
  | stateInStringEscU12 => do_hex stateInStringEscU123 s c
  | stateInStringEscU123 => do_hex stateInString s c
  | stateNeg => do_stateNeg s c
  | state1 => do_state1 s c
  | state0 => do_state0 s c
  | stateDot => do_stateDot s c
  | stateDot0 => do_stateDot0 s c
  | stateE => do_stateE s c
  | stateESign => do_stateESign s c
  | stateE0 => do_stateE0 s c
  | stateT => do_lit "r" stateTr "in literal true (expecting 'r')" s c
  | stateTr => do_lit "u" stateTru "in literal true (expecting 'u')" s c
  | stateTru => do_lit "e" stateEndValue "in literal true (expecting 'e')" s c
  | stateF => do_lit "a" stateFa "in literal false (expecting 'a')" s c
  | stateFa => do_lit "l" stateFal "in literal false (expecting 'l')" s c
  | stateFal => do_lit "s" stateFals "in literal false (expecting 's')" s c
  | stateFals => do_lit "e" stateEndValue "in literal false (expecting 'e')" s c
  | stateN => do_lit "u" stateNu "in literal null (expecting 'u')" s c
  | stateNu => do_lit "l" stateNul "in literal null (expecting 'l')" s c
  | stateNul => do_lit "l" stateEndValue "in literal null (expecting 'l')" s c
  | stateError => (scanError, s)
  end.

(** [s.eof()] *)
Definition scanner_eof (s : scanner) : scan_code * scanner :=
  match err s with
  | Some _ => (scanError, s)
  | None =>
      if endTop s then (scanEnd, s)
      else
        let s' := snd (scanner_step s " ") in
        if endTop s' then (scanEnd, s')
        else
          match err s' with
          | Some _ => (scanError, s')
          | None =>
              (scanError,
               mkScanner (step s') (endTop s') (parseState s')
                 (Some (SyntaxError "unexpected end of JSON input")))
          end
  end.

Definition is_scanError (c : scan_code) : bool :=
  match c with scanError => true | _ => false end.

(** The loop of [checkValid(data, scan)]. *)
Fixpoint checkValid_loop (data : string) (scan : scanner) : option error :=
  match data with
  | EmptyString =>
      let '(code, scan') := scanner_eof scan in
      if is_scanError code then
        Some (default (SyntaxError "unexpected end of JSON input") (err scan'))
      else None
  | String c rest =>
      let '(code, scan') := scanner_step scan c in
      if is_scanError code then
        Some (default (SyntaxError "unexpected end of JSON input") (err scan'))
      else checkValid_loop rest scan'
  end.

(** [checkValid]: [nil] ([None]) when [data] is one JSON value. *)
Definition checkValid (data : string) : option error :=
  checkValid_loop data scanner_reset.

(** [json.Valid(data)] *)
Definition json_Valid (data : string) : bool :=
  match checkValid data with None => true | Some _ => false end.

(** [json.Unmarshal(data, &v)] first checks that [data] is valid JSON and
    only then decodes it into the destination; [decode] is that second,
    reflective stage for the destination type at hand. *)
Definition json_Unmarshal {T} (decode : string -> result T) (data : string)
  : result T :=
  match checkValid data with
  | Some e => Err e
  | None => decode data
  end.

(** ** package io *)

(** An [io.Reader] as the handler sees it: the bytes it delivers, followed
    by end of file ([rd_err = None]) or by a read error, which is reported
    by a read of its own once the bytes have been delivered. *)
Record Reader : Type := mkReader {
  rd_data : string;
  rd_err : option error;
}.

(** What a [LimitedReader] with [n] bytes left passes on from a source that
    delivers [data] and then ends with [term]: once [n <= 0] it reports end
    of file without touching the source again. *)
Fixpoint limited_read (n : Z) (data : string) (term : option error)
  : string * option error :=
  if n <=? 0 then (EmptyString, None)
  else
    match data with
    | EmptyString => (EmptyString, term)
    | String c rest =>
        let '(d, e) := limited_read (n - 1) rest term in (String c d, e)
    end.

(** [io.LimitReader(r, n)] *)
Definition io_LimitReader (r : Reader) (n : Z) : Reader :=
  let '(d, e) := limited_read n (rd_data r) (rd_err r) in mkReader d e.

(** [io.ReadAll(r)]: everything up to end of file, or the read error. *)
Definition io_ReadAll (r : Reader) : result string :=
  match rd_err r with
  | None => Ok (rd_data r)
  | Some e => Err e
  end.

(** ** package time *)

(** A [time.Time]: wall clock and monotonic clock readings, in nanoseconds. *)
Record Time : Type := mkTime { wall : Z; mono : Z }.

Definition minDuration : Z := - 2 ^ 63.
Definition maxDuration : Z := 2 ^ 63 - 1.

(** [t.Sub(u)] on the monotonic readings; a [Duration] is an [int64] and the
    difference saturates. *)
Definition time_Sub (t u : Time) : Z :=
  let d := mono t - mono u in
  if d <? minDuration then minDuration
  else if maxDuration <? d then maxDuration
  else d.

(** [d.Milliseconds()]: integer division, truncated towards zero. *)
Definition Duration_Milliseconds (d : Z) : Z := Z.quot d 1000000.

(** ** package net/url and net/http *)

(** [stringContainsCTLByte] of net/url. *)
Fixpoint stringContainsCTLByte (s : string) : bool :=
  match s with
  | EmptyString => false
  | String b rest =>
      if (byte_val b <? 32) || (byte_val b =? 127) then true
      else stringContainsCTLByte rest
  end.

(** The part of a raw URL before its first [#]: the [u] of
    [u, frag, _ := strings.Cut(rawURL, "#")]. *)
Fixpoint before_fragment (rawURL : string) : string :=
  match rawURL with
  | EmptyString => EmptyString
  | String c rest =>
      if Ascii.eqb c "#" then EmptyString else String c (before_fragment rest)
  end.

Record http_Request : Type := mkRequest {
  req_Method : string;
  req_URL : string;
  req_Header : gmap string (list string);
}.

Record http_Response : Type := mkResponse {
  resp_StatusCode : Z;
  resp_Header : gmap string (list string);
  resp_Body : Reader;
}.

(** The inbound call as [pubSubHandler] uses it: [r.Method] and [r.Body]. *)
Record Inbound : Type := mkInbound {
  Method : string;
  Body : Reader;
}.

Definition http_MethodPost : string := "POST".
Definition http_StatusOK : Z := 200.

(** ** Types of main.go *)

Module PubSubMessage.
Record message : Type := mkMessage {
  Data : string;
  Attributes : gmap string string;
  MessageID : string;
  PublishTime : string;
}.
Record t : Type := mk {
  Message : message;
  Subscription : string;
}.
End PubSubMessage.

Module InputPayload.
Record t : Type := mk { URL : string }.
End InputPayload.

Module OutputPayload.
Record t : Type := mk {
  URL : string;
  Error : string;
  Headers : string;
  ResponseBody : string;
  ResponseJson : string;
  ResponseTime : Z;
  RequestTime : string;
  StatusCode : Z;
}.
(** [output.ResponseJson = v] and [output.ResponseBody = v]. *)
Definition set_ResponseJson (o : t) (v : string) : t :=
  mk (URL o) (Error o) (Headers o) (ResponseBody o) v
     (ResponseTime o) (RequestTime o) (StatusCode o).
Definition set_ResponseBody (o : t) (v : string) : t :=
  mk (URL o) (Error o) (Headers o) v (ResponseJson o)
     (ResponseTime o) (RequestTime o) (StatusCode o).
End OutputPayload.

(** ** The environment

    [GoLib] collects the pure functions of the standard library that are not
    embedded above; every theorem holds whatever they are.  [World] answers
    the calls that leave the process. *)
Record GoLib : Type := mkGoLib {
  (** the decoding stage of [json.Unmarshal] into a [PubSubMessage] *)
  decode_PubSubMessage : string -> result PubSubMessage.t;
  (** the decoding stage of [json.Unmarshal] into an [InputPayload] *)
  decode_InputPayload : string -> result InputPayload.t;
  (** the JSON encoding of a Go string: quotes and escapes *)
  json_appendString : string -> string;
  (** what [url.Parse] checks after the control-character test *)
  url_parse_rest : string -> option error;
  (** [t.UTC().Format(time.RFC3339Nano)] of a wall clock reading *)
  time_Format_RFC3339Nano : Z -> string;
}.

Record World : Type := mkWorld {
  (** [time.Now()] the k-th time the clock is read *)
  clock_at : nat -> Time;
  (** [os.Getenv] *)
  os_Getenv : string -> string;
  (** [pubsub.NewClient(ctx, projectID)]: its error, if any *)
  pubsub_NewClient : string -> option error;
  (** [topic.Publish(...)] followed by [result.Get(ctx)], by project, topic
      and data *)
  pubsub_Publish : string -> string -> string -> result string;
  (** [client.Do(req)] with the 10 second timeout *)
  client_Do : http_Request -> result http_Response;
}.

(** ** Effects: a trace of what the handler does, and the clock *)

Inductive LogArg : Type := LStr (s : string) | LErr (e : error).

Inductive Event : Type :=
| EvLog (format : string) (args : list LogArg)
| EvTopicPublish (project topic data : string) (attributes : list (string * string))
| EvDo (req : http_Request)
| EvWriteHeader (code : Z).

Record State : Type := mkState {
  trace : list Event;
  clock_reads : nat;
}.

Definition initial : State := mkState [] 0.

Definition M (A : Type) : Type := State -> A * State.

#[global] Instance M_ret : MRet M := fun A a st => (a, st).
#[global] Instance M_bind : MBind M :=
  fun A B f m st => let '(a, st') := m st in f a st'.

Definition exec {A} (m : M A) (st : State) : State := snd (m st).

Definition emit (e : Event) : M unit :=
  fun st => (tt, mkState (trace st ++ [e]) (clock_reads st)).

Definition log_Printf (format : string) (args : list LogArg) : M unit :=
  emit (EvLog format args).

(** [w.WriteHeader(code)] *)
Definition WriteHeader (code : Z) : M unit := emit (EvWriteHeader code).

(** ** package encoding/json: [json.Marshal] of the values main.go encodes *)

Inductive JScalar : Type := JString (s : string) | JNumber (n : Z).

(** The members of an encoded JSON object, in the order they are written. *)
Definition JObject : Type := list (string * JScalar).

(** A string field tagged [omitempty] is left out when it is empty. *)
Definition omitempty (name : string) (v : string) : JObject :=
  match v with
  | EmptyString => []
  | _ => [(name, JString v)]
  end.

(** The fields of [OutputPayload] with their tags, in declaration order. *)
Definition OutputPayload_members (o : OutputPayload.t) : JObject :=
  [("url", JString (OutputPayload.URL o))]
  ++ omitempty "error" (OutputPayload.Error o)
  ++ omitempty "headers" (OutputPayload.Headers o)
  ++ omitempty "responseBody" (OutputPayload.ResponseBody o)
  ++ omitempty "responseJson" (OutputPayload.ResponseJson o)
  ++ [("responseTime", JNumber (OutputPayload.ResponseTime o));
      ("requestTime", JString (OutputPayload.RequestTime o));
      ("statusCode", JNumber (OutputPayload.StatusCode o))].

(** The byte order on strings, by which [json.Marshal] sorts map keys. *)
Definition key_le (x y : string * string) : Prop := String.le x.1 y.1.

#[global] Instance key_le_dec : RelDecision key_le.
Proof. intros x y. unfold key_le. apply _. Defined.

Definition map_members (m : gmap string string) : JObject :=
  (fun kv => (kv.1, JString kv.2)) <$> merge_sort key_le (map_to_list m).

Section Pipeline.
Context (L : GoLib) (W : World).

(** *** Encoding *)

Definition render_scalar (v : JScalar) : string :=
  match v with
  | JString s => json_appendString L s
  | JNumber n => pretty n
  end.

Definition render_object (quote_key : string -> string) (o : JObject) : string :=
  "{" +:+ strings_Join
            ((fun kv => quote_key kv.1 +:+ ":" +:+ render_scalar kv.2) <$> o) ","
      +:+ "}".

(** Struct field names are written between double quotes as they are. *)
Definition quote_name (name : string) : string :=
  String dquote (name +:+ String dquote EmptyString).

(** [json.Marshal(v)] for [v] an [OutputPayload] or a pointer to one. *)
Definition json_Marshal_OutputPayload (o : OutputPayload.t) : result string :=
  Ok (render_object quote_name (OutputPayload_members o)).

(** [json.Marshal(m)] for [m] a [map[string]string]: keys sorted. *)
Definition json_Marshal_map (m : gmap string string) : result string :=
  Ok (render_object (json_appendString L) (map_members m)).

(** *** Clock and network *)

Definition time_Now : M Time :=
  fun st => (clock_at W (clock_reads st),
             mkState (trace st) (S (clock_reads st))).

(** [time.Since(t)] is [time.Now().Sub(t)]. *)
Definition time_Since (t : Time) : M Z :=
  now ← time_Now; mret (time_Sub now t).

(** [http.NewRequest(method, url, nil)]; the method is always the valid
    [GET] here, so only parsing the URL can fail. *)
Definition http_NewRequest (method url : string) : result http_Request :=
  if stringContainsCTLByte (before_fragment url)
  then Err (UrlError "net/url: invalid control character in URL")
  else
    match url_parse_rest L url with
    | Some e => Err e
    | None => Ok (mkRequest method url ∅)
    end.

(** [req.Header.Set(key, value)] for a key in canonical form. *)
Definition Header_Set (req : http_Request) (key value : string) : http_Request :=
  mkRequest (req_Method req) (req_URL req) (<[key := [value]]> (req_Header req)).

(** [client.Do(req)] *)
Definition http_Do (req : http_Request) : M (result http_Response) :=
  emit (EvDo req);; mret (client_Do W req).

(** *** main.go *)

(** publishMessage publishes to the Pub/Sub topic if RESPONSE_PUBSUB is
    set, and logs the message otherwise. *)
Definition publishMessage (message : OutputPayload.t) : M unit :=
  match json_Marshal_OutputPayload message with
  | Err e => log_Printf "Error marshalling message for publishing: %v" [LErr e]
  | Ok messageJSON =>
      let topicName := os_Getenv W "RESPONSE_PUBSUB" in
      if String.eqb topicName EmptyString then
        log_Printf "Publish Message: %s" [LStr messageJSON]
      else
        let projectID := os_Getenv W "GOOGLE_CLOUD_PROJECT" in
        if String.eqb projectID EmptyString then
          log_Printf "GOOGLE_CLOUD_PROJECT env variable not set, cannot publish to PubSub" [];;
          log_Printf "Publish Message: %s" [LStr messageJSON]
        else
          match pubsub_NewClient W projectID with
          | Some e =>
              log_Printf "Error creating PubSub client: %v" [LErr e];;
              log_Printf "Publish Message: %s" [LStr messageJSON]
          | None =>
              emit (EvTopicPublish projectID topicName messageJSON [("type", "request")]);;
              match pubsub_Publish W projectID topicName messageJSON with
              | Err e => log_Printf "Error publishing message to PubSub: %v" [LErr e]
              | Ok id => log_Printf "Published message with ID: %s" [LStr id]
              end
          end
  end.

(** The payload built by publishErrorMessage. *)
Definition errorPayload (errorMsg url : string) (now : Time) : OutputPayload.t :=
  OutputPayload.mk url errorMsg EmptyString EmptyString EmptyString 0
    (time_Format_RFC3339Nano L (wall now)) 0.

(** publishErrorMessage logs an error message variant *)
Definition publishErrorMessage (errorMsg url : string) : M unit :=
  now ← time_Now;
  publishMessage (errorPayload errorMsg url now).

(** isValidURL performs a basic validation of the URL format *)
Definition isValidURL (url : string) : bool :=
  strings_HasPrefix url "http://" || strings_HasPrefix url "https://".

(** decodeBase64 decodes a base64-encoded string *)
Definition decodeBase64 (encoded : string) : result string :=
  match base64_DecodeString encoded with
  | Err e => Err e
  | Ok decodedBytes => Ok decodedBytes
  end.

Definition bodyLimit : Z := 10 * 1024 * 1024.

(** The loop over [resp.Header] that joins the values of every header. *)
Definition joinHeaders (header : gmap string (list string)) : gmap string string :=
  map_fold (fun key values headers => <[key := strings_Join values ", "]> headers)
           ∅ header.

(** [req.Header.Set("User-Agent", "http-response-collector")] *)
Definition withUserAgent (req : http_Request) : http_Request :=
  Header_Set req "User-Agent" "http-response-collector".

(** fetchURL makes an HTTP GET request to the specified URL and processes
    the response *)
Definition fetchURL (url : string) : M (result OutputPayload.t) :=
  match http_NewRequest "GET" url with
  | Err e => mret (Err e)
  | Ok req =>
      let req := withUserAgent req in
      startTime ← time_Now;
      r ← http_Do req;
      match r with
      | Err e => mret (Err e)
      | Ok resp =>
          elapsed ← time_Since startTime;
          let responseTime := Duration_Milliseconds elapsed in
          let headers := joinHeaders (resp_Header resp) in
          let encodedHeaders :=
            match json_Marshal_map headers with
            | Ok b => b
            | Err _ => "{}"
            end in
          match io_ReadAll (io_LimitReader (resp_Body resp) bodyLimit) with
          | Err e => mret (Err e)
          | Ok bodyBytes =>
              let output :=
                OutputPayload.mk url EmptyString encodedHeaders
                  EmptyString EmptyString responseTime
                  (time_Format_RFC3339Nano L (wall startTime))
                  (resp_StatusCode resp) in
              if json_Valid bodyBytes then
                mret (Ok (OutputPayload.set_ResponseJson output bodyBytes))
              else
                mret (Ok (OutputPayload.set_ResponseBody output bodyBytes))
          end
      end
  end.

(** pubSubHandler handles incoming Pub/Sub push requests *)
Definition pubSubHandler (r : Inbound) : M unit :=
  if negb (String.eqb (Method r) http_MethodPost) then
    log_Printf "Invalid request method: %s" [LStr (Method r)];;
    publishErrorMessage "Invalid request method" EmptyString;;
    WriteHeader http_StatusOK
  else
    match io_ReadAll (Body r) with
    | Err e =>
        log_Printf "Error reading request body: %v" [LErr e];;
        publishErrorMessage "Cannot read body" EmptyString;;
        WriteHeader http_StatusOK
    | Ok body =>
        match json_Unmarshal (decode_PubSubMessage L) body with
        | Err e =>
            log_Printf "Error unmarshalling JSON: %v. Body: %s" [LErr e; LStr body];;
            publishErrorMessage "Error unmarshalling JSON" body;;
            WriteHeader http_StatusOK
        | Ok msg =>
            let blob := PubSubMessage.Data (PubSubMessage.Message msg) in
            match decodeBase64 blob with
            | Err e =>
                log_Printf "Error decoding data: %v. Data: %s" [LErr e; LStr blob];;
                publishErrorMessage "Error decoding data" blob;;
                WriteHeader http_StatusOK
            | Ok data =>
                match json_Unmarshal (decode_InputPayload L) data with
                | Err e =>
                    log_Printf "Error unmarshalling input JSON: %v. Data: %s"
                      [LErr e; LStr data];;
                    publishErrorMessage "Error unmarshalling input JSON" data;;
                    WriteHeader http_StatusOK
                | Ok input =>
                    let url := InputPayload.URL input in
                    if negb (isValidURL url) then
                      log_Printf "Invalid URL: %s" [LStr url];;
                      publishErrorMessage "Invalid URL" url;;
                      WriteHeader http_StatusOK
                    else
                      fetched ← fetchURL url;
                      match fetched with
                      | Err e =>
                          log_Printf "Error fetching URL %s: %v" [LStr url; LErr e];;
                          publishErrorMessage "Error fetching URL" url;;
                          WriteHeader http_StatusOK
                      | Ok output =>
                          match json_Marshal_OutputPayload output with
                          | Err e =>
                              log_Printf "Error marshalling output JSON: %v" [LErr e];;
                              publishErrorMessage "Error marshalling output JSON" url;;
                              WriteHeader http_StatusOK
                          | Ok outputJSON =>
                              log_Printf "Processed Response: %s" [LStr outputJSON];;
                              publishMessage output;;
                              WriteHeader http_StatusOK
                          end
                      end
                end
            end
        end
    end.

(** The second half of pubSubHandler on its own, from the validation of
    the URL of the decoded input to the acknowledgment. *)
Definition handleInput (input : InputPayload.t) : M unit :=
  let url := InputPayload.URL input in
  if negb (isValidURL url) then
    log_Printf "Invalid URL: %s" [LStr url];;
    publishErrorMessage "Invalid URL" url;;
    WriteHeader http_StatusOK
  else
    fetched ← fetchURL url;
    match fetched with
    | Err e =>
        log_Printf "Error fetching URL %s: %v" [LStr url; LErr e];;
        publishErrorMessage "Error fetching URL" url;;
        WriteHeader http_StatusOK
    | Ok output =>
        match json_Marshal_OutputPayload output with
        | Err e =>
            log_Printf "Error marshalling output JSON: %v" [LErr e];;
            publishErrorMessage "Error marshalling output JSON" url;;
            WriteHeader http_StatusOK
        | Ok outputJSON =>
            log_Printf "Processed Response: %s" [LStr outputJSON];;
            publishMessage output;;
            WriteHeader http_StatusOK
        end
    end.

End Pipeline.

(** ** Observations on a trace *)

(** The status codes passed to [WriteHeader], in order. *)
Definition written_by (e : Event) : list Z :=
  match e with EvWriteHeader code => [code] | _ => [] end.

Definition written (tr : list Event) : list Z := flat_map written_by tr.

(** The status the inbound call completes with: the first [WriteHeader], or
    200 when the handler returns without one. *)
Definition response_status (tr : list Event) : Z :=
  default http_StatusOK (head (written tr)).

(** The serialized messages handed to the outbound side, whether delivered
    to the topic or written to the log in its place. *)
Definition published_by (e : Event) : list string :=
  match e with
  | EvTopicPublish _ _ data _ => [data]
  | EvLog format [LStr m] =>
      if String.eqb format "Publish Message: %s" then [m] else []
  | _ => []
  end.

Definition published (tr : list Event) : list string :=
  flat_map published_by tr.

(** The outbound requests handed to the HTTP client. *)
Definition dispatched_by (e : Event) : list http_Request :=
  match e with EvDo req => [req] | _ => [] end.

Definition dispatched (tr : list Event) : list http_Request :=
  flat_map dispatched_by tr.

(** The trace and the result of a whole inbound call. *)
Definition handle (L : GoLib) (W : World) (r : Inbound) : list Event :=
  trace (exec (pubSubHandler L W r) initial).

(** The text published for a payload. *)
Definition messageJSON (L : GoLib) (o : OutputPayload.t) : string :=
  render_object L quote_name (OutputPayload_members o).

(** The text published for a failure reported at the [k]-th reading of the
    clock. *)
Definition errorJSON (L : GoLib) (W : World) (errorMsg url : string) (k : nat)
  : string :=
  messageJSON L (errorPayload L errorMsg url (clock_at W k)).

(** The request the pipeline has decoded from an inbound call, when the
    method check, the body read, both JSON parses and the base64 decoding
    all succeed. *)
Definition decoded_request (L : GoLib) (r : Inbound) : option InputPayload.t :=
  if negb (String.eqb (Method r) http_MethodPost) then None
  else
    match io_ReadAll (Body r) with
    | Err _ => None
    | Ok body =>
        match json_Unmarshal (decode_PubSubMessage L) body with
        | Err _ => None
        | Ok msg =>
            match decodeBase64 (PubSubMessage.Data (PubSubMessage.Message msg)) with
            | Err _ => None
            | Ok data =>
                match json_Unmarshal (decode_InputPayload L) data with
                | Err _ => None
                | Ok input => Some input
                end
            end
        end
    end.

(** The member of a JSON object with a given name, if it is written. *)
Fixpoint member (name : string) (o : JObject) : option JScalar :=
  match o with
  | [] => None
  | (k, v) :: rest => if String.eqb k name then Some v else member name rest
  end.

(** The names of the members of a JSON object, in order. *)
Definition member_names (o : JObject) : list string := fst <$> o.

(** What fetchURL returns for the response [resp] whose body, read up to
    the limit, is [body], when the clock read [startTime] before the
    dispatch and [endTime] after it. *)
Record Fetched (L : GoLib) (url : string) (resp : http_Response)
    (startTime endTime : Time) (body : string) (out : OutputPayload.t) : Prop :=
  mkFetched {
  fetched_URL : OutputPayload.URL out = url;
  fetched_Error : OutputPayload.Error out = EmptyString;
  fetched_Headers :
    OutputPayload.Headers out
    = render_object L (json_appendString L) (map_members (joinHeaders (resp_Header resp)));
  fetched_ResponseJson :
    OutputPayload.ResponseJson out = if json_Valid body then body else EmptyString;
  fetched_ResponseBody :
    OutputPayload.ResponseBody out = if json_Valid body then EmptyString else body;
  fetched_ResponseTime :
    OutputPayload.ResponseTime out = Duration_Milliseconds (time_Sub endTime startTime);
  fetched_RequestTime :
    OutputPayload.RequestTime out = time_Format_RFC3339Nano L (wall startTime);
  fetched_StatusCode : OutputPayload.StatusCode out = resp_StatusCode resp;
}.


(** The first [n] bytes of a string. *)
Fixpoint string_take (n : Z) (s : string) : string :=
  if n <=? 0 then EmptyString
  else
    match s with
    | EmptyString => EmptyString
    | String c r => String c (string_take (n - 1) r)
    end.

(** Exactly one of the two body members is written. *)
Definition exactly_one_body_field (out : OutputPayload.t) : Prop :=
  let ms := OutputPayload_members out in
  (is_Some (member "responseJson" ms) ∧ member "responseBody" ms = None)
  ∨ (member "responseJson" ms = None ∧ is_Some (member "responseBody" ms)).

(** What a step of the pipeline adds to the trace: the messages it
    publishes, the requests it dispatches and the statuses it writes. *)
Record Adds (evs : list Event) (pub : list string) (reqs : list http_Request)
    (codes : list Z) : Prop := mkAdds {
  adds_published : published evs = pub;
  adds_dispatched : dispatched evs = reqs;
  adds_written : written evs = codes;
}.

(** [m] run from [st] appends [evs] to the trace and reads the clock [k]
    times. *)
Definition runs {A} (m : M A) (st : State) (a : A) (evs : list Event) (k : nat)
  : Prop :=
  m st = (a, mkState (trace st ++ evs) (clock_reads st + k)).

(** ** A sample environment

    Stand-ins for the library functions and for the outside world, used to
    run the pipeline on concrete calls.  The decoders read only the two
    shapes of text used below, and the string encoder escapes only the
    double quote and the backslash, which is what Go does on the printable
    ASCII texts used here. *)
Module Sample.

Fixpoint strip_prefix (pre s : string) : option string :=
  match pre with
  | EmptyString => Some s
  | String p pre' =>
      match s with
      | EmptyString => None
      | String c s' => if Ascii.eqb c p then strip_prefix pre' s' else None
      end
  end.

Fixpoint until_quote (s : string) : option (string * string) :=
  match s with
  | EmptyString => None
  | String c r =>
      if Ascii.eqb c dquote then Some (EmptyString, r)
      else if Ascii.eqb c "\" then None
      else
        match until_quote r with
        | Some (a, b) => Some (String c a, b)
        | None => None
        end
  end.

(** The text between [pre] and a closing double quote followed by [post]. *)
Definition between (pre post s : string) : option string :=
  match strip_prefix pre s with
  | None => None
  | Some r =>
      match until_quote r with
      | Some (mid, rest) => if String.eqb rest post then Some mid else None
      | None => None
      end
  end.

Definition message_with (blob : string) : PubSubMessage.t :=
  PubSubMessage.mk (PubSubMessage.mkMessage blob ∅ EmptyString EmptyString) EmptyString.

Definition envelope (blob : string) : string :=
  js "{'message':{'data':'" +:+ blob +:+ js "'}}".

Definition envelope_without_data : string := js "{'message':{}}".

Definition decode_envelope (body : string) : result PubSubMessage.t :=
  match between (js "{'message':{'data':'") "}}" body with
  | Some blob => Ok (message_with blob)
  | None =>
      if String.eqb body envelope_without_data then Ok (message_with EmptyString)
      else Err (UnmarshalTypeError "sample decoder: unknown shape")
  end.

Definition ctl_url : string := "http://example.com/" +:+ String "001" EmptyString.

Definition decode_input (data : string) : result InputPayload.t :=
  if String.eqb data (js "{'url':'http://example.com/\u0001'}")
  then Ok (InputPayload.mk ctl_url)
  else
    match between (js "{'url':'") "}" data with
    | Some url => Ok (InputPayload.mk url)
    | None => Err (UnmarshalTypeError "sample decoder: unknown shape")
    end.

Fixpoint escape (s : string) : string :=
  match s with
  | EmptyString => EmptyString
  | String c r =>
      if Ascii.eqb c dquote || Ascii.eqb c "\"
      then String "\" (String c (escape r))
      else String c (escape r)
  end.

Definition appendString (s : string) : string :=
  String dquote (escape s +:+ String dquote EmptyString).

Definition lib : GoLib :=
  mkGoLib decode_envelope decode_input appendString
          (fun _ => None) (fun w => pretty w +:+ "ns").

(** A clock that advances by 111 ms between readings. *)
Definition clock (k : nat) : Time :=
  mkTime (1738712251643659490 + Z.of_nat k * 111000000) (Z.of_nat k * 111000000).

Definition json_response : http_Response :=
  mkResponse 200
    (<["Content-Type" := ["application/json"]]>
       (<["Set-Cookie" := ["a=1"; "b=2"]]> ∅))
    (mkReader (js "{'message':'Hello, World!'}") None).

Definition json_url : string := "https://example.com/content.json".
Definition json_body : string := js "{'message':'Hello, World!'}".

(** What fetchURL returns for [json_url] from the first reading of the
    clock. *)
Definition json_output : OutputPayload.t :=
  OutputPayload.mk json_url EmptyString
    (js "{'Content-Type':'application/json','Set-Cookie':'a=1, b=2'}")
    EmptyString json_body 111 "1738712251643659490ns" 200.

Definition text_response : http_Response :=
  mkResponse 200 (<["Content-Type" := ["text/plain"]]> ∅)
    (mkReader "Body Content Goes Here" None).

Definition empty_response : http_Response :=
  mkResponse 204 ∅ (mkReader EmptyString None).

Definition reset_response : http_Response :=
  mkResponse 200 ∅
    (mkReader "partial" (Some (ReadError "connection reset by peer"))).

Definition do (req : http_Request) : result http_Response :=
  let url := req_URL req in
  if String.eqb url "https://example.com/content.json" then Ok json_response
  else if String.eqb url "https://example.com/text" then Ok text_response
  else if String.eqb url "https://example.com/empty" then Ok empty_response
  else if String.eqb url "https://example.com/reset" then Ok reset_response
  else Err (TransportError "dial tcp: lookup failed: no such host").

(** No topic configured: messages go to the log. *)
Definition world : World :=
  mkWorld clock (fun _ => EmptyString) (fun _ => None)
          (fun _ _ _ => Ok "1") do.

(** A topic and a project configured, and a client that works. *)
Definition getenv (name : string) : string :=
  if String.eqb name "RESPONSE_PUBSUB" then "responses"
  else if String.eqb name "GOOGLE_CLOUD_PROJECT" then "my-project"
  else EmptyString.

Definition world_with_topic : World :=
  mkWorld clock getenv (fun _ => None) (fun _ _ _ => Ok "1") do.

Definition post (body : string) : Inbound :=
  mkInbound "POST" (mkReader body None).

(** Inbound calls: a request for a JSON document, for a text document, for
    a document with an empty body, for a host that cannot be reached, for a
    URL of another scheme, for a URL with a control character, a payload
    that is not base64, an envelope with no data, and a GET. *)
Definition call_json : Inbound :=
  post (envelope "eyJ1cmwiOiJodHRwczovL2V4YW1wbGUuY29tL2NvbnRlbnQuanNvbiJ9").
Definition call_text : Inbound :=
  post (envelope "eyJ1cmwiOiJodHRwczovL2V4YW1wbGUuY29tL3RleHQifQ==").
Definition call_empty : Inbound :=
  post (envelope "eyJ1cmwiOiJodHRwczovL2V4YW1wbGUuY29tL2VtcHR5In0=").
Definition call_fail : Inbound :=
  post (envelope "eyJ1cmwiOiJodHRwczovL2ZhaWwuZXhhbXBsZS5jb20ifQ==").
Definition call_ftp : Inbound :=
  post (envelope "eyJ1cmwiOiJmdHA6Ly9leGFtcGxlLmNvbS9maWxlIn0=").
Definition call_ctl : Inbound :=
  post (envelope "eyJ1cmwiOiJodHRwOi8vZXhhbXBsZS5jb20vXHUwMDAxIn0=").
Definition call_not_base64 : Inbound := post (envelope "not-base64!").
Definition call_no_data : Inbound := post envelope_without_data.
Definition call_get : Inbound := mkInbound "GET" (mkReader EmptyString None).

End Sample.

(** ** Further notions used to state properties of the code *)

(** Whether publishMessage delivers to the topic: both environment
    variables are set and the client can be created. *)
Definition topic_configured (W : World) : bool :=
  negb (String.eqb (os_Getenv W "RESPONSE_PUBSUB") EmptyString)
  && negb (String.eqb (os_Getenv W "GOOGLE_CLOUD_PROJECT") EmptyString)
  && match pubsub_NewClient W (os_Getenv W "GOOGLE_CLOUD_PROJECT") with
     | None => true
     | Some _ => false
     end.

Definition is_log (e : Event) : Prop :=
  match e with EvLog _ _ => True | _ => False end.

(** The two shapes of a published payload. *)
Definition failure_shaped (o : OutputPayload.t) : Prop :=
  OutputPayload.Error o ≠ EmptyString
  ∧ OutputPayload.Headers o = EmptyString
  ∧ OutputPayload.ResponseBody o = EmptyString
  ∧ OutputPayload.ResponseJson o = EmptyString
  ∧ OutputPayload.ResponseTime o = 0
  ∧ OutputPayload.StatusCode o = 0.

Definition success_shaped (o : OutputPayload.t) : Prop :=
  OutputPayload.Error o = EmptyString
  ∧ OutputPayload.Headers o ≠ EmptyString
  ∧ isValidURL (OutputPayload.URL o) = true
  ∧ (OutputPayload.ResponseBody o = EmptyString
     ∨ OutputPayload.ResponseJson o = EmptyString).

(** A string without its line feeds and carriage returns. *)
Fixpoint strip_newlines (s : string) : string :=
  match s with
  | EmptyString => EmptyString
  | String c r =>
      if is_newline c then strip_newlines r else String c (strip_newlines r)
  end.

(** A byte that is neither in the base64 alphabet, nor the padding
    character, nor a line break. *)
Definition foreign_byte (c : ascii) : bool :=
  match decodeMap c with
  | Some _ => false
  | None => negb (is_newline c) && negb (Ascii.eqb c padChar)
  end.

Fixpoint has_foreign_byte (s : string) : bool :=
  match s with
  | EmptyString => false
  | String c r => foreign_byte c || has_foreign_byte r
  end.

(** [StdEncoding.EncodeToString], the encoder whose output decodeBase64 is
    meant to read: three bytes give four digits of the alphabet, a last
    group of one or two bytes is padded. *)
Definition encodeStd : list ascii :=
  String.list_ascii_of_string
    "ABCDEFGHIJKLMNOPQRSTUVWXYZabcdefghijklmnopqrstuvwxyz0123456789+/".

Definition encode_digit (d : Z) : ascii := nth (Z.to_nat d) encodeStd "A"%char.

Definition group_val (a b c : Z) : Z :=
  Z.lor (Z.lor (Z.shiftl a 16) (Z.shiftl b 8)) c.

(** The six bits [k .. k+5] of a group, and the digit written for them. *)
Definition digit_of (val k : Z) : Z := Z.land (Z.shiftr val k) 63.

Definition sextet (val k : Z) : ascii := encode_digit (digit_of val k).

Fixpoint base64_EncodeToString (src : string) : string :=
  match src with
  | EmptyString => EmptyString
  | String a EmptyString =>
      let val := group_val (byte_val a) 0 0 in
      String (sextet val 18) (String (sextet val 12)
        (String padChar (String padChar EmptyString)))
  | String a (String b EmptyString) =>
      let val := group_val (byte_val a) (byte_val b) 0 in
      String (sextet val 18) (String (sextet val 12) (String (sextet val 6)
        (String padChar EmptyString)))
  | String a (String b (String c rest)) =>
      let val := group_val (byte_val a) (byte_val b) (byte_val c) in
      String (sextet val 18) (String (sextet val 12) (String (sextet val 6)
        (String (sextet val 0) (base64_EncodeToString rest))))
  end.

(** Further sample calls: a POST whose body cannot be read, one whose body
    is not JSON, one whose payload is not JSON, and a request for a page
    that answers 404. *)
Module More.

Definition call_unreadable : Inbound :=
  mkInbound "POST" (mkReader "{" (Some (ReadError "unexpected EOF"))).

Definition call_not_json : Inbound := Sample.post "hello".

(** The base64 encoding of the text [plain text]. *)
Definition call_payload_not_json : Inbound :=
  Sample.post (Sample.envelope "cGxhaW4gdGV4dA==").

Definition missing_response : http_Response :=
  mkResponse 404 (<["Content-Type" := ["text/plain"]]> ∅)
    (mkReader "404 page not found" None).

Definition do (req : http_Request) : result http_Response :=
  if String.eqb (req_URL req) "https://example.com/missing" then Ok missing_response
  else Sample.do req.

Definition world : World :=
  mkWorld Sample.clock (fun _ => EmptyString) (fun _ => None)
          (fun _ _ _ => Ok "1") do.

Definition missing_url : string := "https://example.com/missing".

(** What fetchURL returns for [missing_url] from the first reading of the
    clock. *)
Definition missing_output : OutputPayload.t :=
  OutputPayload.mk missing_url EmptyString (js "{'Content-Type':'text/plain'}")
    "404 page not found" EmptyString 111 "1738712251643659490ns" 404.

End More.

(** [n] copies of a byte. *)
Fixpoint string_repeat (n : nat) (c : ascii) : string :=
  match n with
  | O => EmptyString
  | S n' => String c (string_repeat n' c)
  end.

(** A server that answers every request with a body five bytes longer than
    the limit of fetchURL, and whose connection breaks after the last
    byte. *)
Module Big.

Definition data : string := string_repeat (Z.to_nat (bodyLimit + 5)) "a".

Definition response : http_Response :=
  mkResponse 200 ∅ (mkReader data (Some (ReadError "connection reset by peer"))).

Definition world : World :=
  mkWorld Sample.clock (fun _ => EmptyString) (fun _ => None)
          (fun _ _ _ => Ok "1") (fun _ => Ok response).

End Big.

(** * Properties *)

(** ** Observations distribute over the concatenation of traces *)

Lemma written_app (a b : list Event) : written (a ++ b) = written a ++ written b.
Proof. unfold written. apply flat_map_app. Qed.

Lemma published_app (a b : list Event) :
  published (a ++ b) = published a ++ published b.
Proof. unfold published. apply flat_map_app. Qed.

Lemma dispatched_app (a b : list Event) :
  dispatched (a ++ b) = dispatched a ++ dispatched b.
Proof. unfold dispatched. apply flat_map_app. Qed.

Lemma Adds_nil : Adds [] [] [] [].
Proof. by split. Qed.

Lemma Adds_app evs1 evs2 p1 p2 d1 d2 w1 w2 p d w :
  Adds evs1 p1 d1 w1 → Adds evs2 p2 d2 w2 →
  p = p1 ++ p2 → d = d1 ++ d2 → w = w1 ++ w2 →
  Adds (evs1 ++ evs2) p d w.
Proof.
  intros [? ? ?] [? ? ?] -> -> ->.
  split; rewrite ?published_app, ?dispatched_app, ?written_app; congruence.
Qed.

Lemma runs_bind {A B} (m : M A) (f : A → M B) st a evs1 k1 b evs2 k2 :
  runs m st a evs1 k1 →
  runs (f a) (mkState (trace st ++ evs1) (clock_reads st + k1)) b evs2 k2 →
  runs (m ≫= f) st b (evs1 ++ evs2) (k1 + k2).
Proof.
  unfold runs, mbind, M_bind. intros -> ->. simpl.
  by rewrite <-(assoc_L (++)), Nat.add_assoc.
Qed.

Lemma runs_ret {A} (a : A) st : runs (mret a) st a [] 0.
Proof.
  unfold runs, mret, M_ret. destruct st as [tr c]. simpl.
  by rewrite app_nil_r, Nat.add_0_r.
Qed.

Lemma runs_emit e st : runs (emit e) st tt [e] 0.
Proof. unfold runs, emit. by rewrite Nat.add_0_r. Qed.

Lemma runs_time_Now W st :
  runs (time_Now W) st (clock_at W (clock_reads st)) [] 1.
Proof.
  unfold runs, time_Now. by rewrite app_nil_r, Nat.add_1_r.
Qed.

Section Runs.
Context (L : GoLib) (W : World).

(** publishMessage hands over exactly the encoding of its argument,
    whichever of its four ways it takes. *)
Lemma runs_publishMessage (o : OutputPayload.t) st :
  ∃ evs, runs (publishMessage L W o) st tt evs 0
         ∧ Adds evs [messageJSON L o] [] [].
Proof.
  unfold publishMessage, json_Marshal_OutputPayload, log_Printf.
  fold (messageJSON L o).
  destruct (String.eqb (os_Getenv W "RESPONSE_PUBSUB") EmptyString).
  { eexists. split; [apply runs_emit | by split]. }
  destruct (String.eqb (os_Getenv W "GOOGLE_CLOUD_PROJECT") EmptyString).
  { eexists. split.
    - eapply (runs_bind _ _ _ tt _ 0 tt _ 0); apply runs_emit.
    - by split. }
  destruct (pubsub_NewClient W _).
  { eexists. split.
    - eapply (runs_bind _ _ _ tt _ 0 tt _ 0); apply runs_emit.
    - by split. }
  destruct (pubsub_Publish W _ _ _).
  - eexists. split.
    + eapply (runs_bind _ _ _ tt _ 0 tt _ 0); [apply runs_emit|].
      apply runs_emit.
    + by split.
  - eexists. split.
    + eapply (runs_bind _ _ _ tt _ 0 tt _ 0); [apply runs_emit|].
      apply runs_emit.
    + by split.
Qed.

Lemma runs_publishErrorMessage (errorMsg url : string) st :
  ∃ evs, runs (publishErrorMessage L W errorMsg url) st tt evs 1
         ∧ Adds evs
             [messageJSON L (errorPayload L errorMsg url (clock_at W (clock_reads st)))]
             [] [].
Proof.
  unfold publishErrorMessage.
  destruct (runs_publishMessage
              (errorPayload L errorMsg url (clock_at W (clock_reads st)))
              (mkState (trace st ++ []) (clock_reads st + 1)))
    as (evs & Hrun & Hadds).
  exists evs. split; [|done].
  apply (runs_bind _ _ _ (clock_at W (clock_reads st)) [] 1 tt evs 0);
    [apply runs_time_Now | done].
Qed.

(** A failure path of the handler: a log line that is not a published
    message, the error message, and the acknowledgment. *)
Lemma runs_failure_path (format : string) (args : list LogArg)
    (errorMsg url : string) st :
  published_by (EvLog format args) = [] →
  ∃ evs,
    runs (log_Printf format args;;
          publishErrorMessage L W errorMsg url;;
          WriteHeader http_StatusOK) st tt evs 1
    ∧ Adds evs
        [messageJSON L (errorPayload L errorMsg url (clock_at W (clock_reads st)))]
        [] [http_StatusOK].
Proof.
  intros Hlog.
  destruct (runs_publishErrorMessage errorMsg url
              (mkState (trace st ++ [EvLog format args]) (clock_reads st + 0)))
    as (evs & Hrun & Hadds).
  simpl in Hadds. rewrite Nat.add_0_r in Hadds.
  exists ([EvLog format args] ++ (evs ++ [EvWriteHeader http_StatusOK])). split.
  - apply (runs_bind _ _ _ tt _ 0 tt _ 1); [apply runs_emit|].
    apply (runs_bind _ _ _ tt _ 1 tt _ 0); [done | apply runs_emit].
  - eapply (Adds_app _ _ [] _ [] [] [] [http_StatusOK]); [| |done..].
    + split; [|done..].
      change (published [EvLog format args])
        with (published_by (EvLog format args) ++ []).
      by rewrite Hlog.
    + eapply (Adds_app _ _ _ [] [] [] [] [http_StatusOK]);
        [done | by split | done..].
Qed.

(** fetchURL, by the stage at which it ends. *)
Lemma runs_fetchURL (url : string) st :
  match http_NewRequest L "GET" url with
  | Err e => runs (fetchURL L W url) st (Err e) [] 0
  | Ok req =>
      match client_Do W (withUserAgent req) with
      | Err e => runs (fetchURL L W url) st (Err e) [EvDo (withUserAgent req)] 1
      | Ok resp =>
          match io_ReadAll (io_LimitReader (resp_Body resp) bodyLimit) with
          | Err e => runs (fetchURL L W url) st (Err e) [EvDo (withUserAgent req)] 2
          | Ok body =>
              ∃ out,
                runs (fetchURL L W url) st (Ok out) [EvDo (withUserAgent req)] 2
                ∧ Fetched L url resp (clock_at W (clock_reads st))
                    (clock_at W (S (clock_reads st))) body out
          end
      end
  end.
Proof.
  unfold fetchURL.
  destruct (http_NewRequest L "GET" url) as [req|e]; [|apply runs_ret].
  destruct st as [tr c].
  unfold runs, mbind, M_bind, mret, M_ret, time_Now, http_Do, emit, time_Since.
  simpl.
  destruct (client_Do W (withUserAgent req)) as [resp|e].
  2:{ do 2 f_equal. lia. }
  destruct (io_ReadAll (io_LimitReader (resp_Body resp) bodyLimit)) as [body|e].
  2:{ simpl. do 2 f_equal. lia. }
  destruct (json_Valid body) eqn:Hvalid.
  - eexists. split; [simpl; do 2 f_equal; lia|].
    split; simpl; rewrite ?Hvalid; reflexivity.
  - eexists. split; [simpl; do 2 f_equal; lia|].
    split; simpl; rewrite ?Hvalid; reflexivity.
Qed.

(** The second half of the handler, by the stage at which it ends. *)
Lemma runs_handleInput (input : InputPayload.t) st :
  let url := InputPayload.URL input in
  ∃ evs k,
    runs (handleInput L W input) st tt evs k
    ∧ if negb (isValidURL url) then
        Adds evs [errorJSON L W "Invalid URL" url (clock_reads st)] [] [http_StatusOK]
      else
        match http_NewRequest L "GET" url with
        | Err _ =>
            Adds evs [errorJSON L W "Error fetching URL" url (clock_reads st)]
                 [] [http_StatusOK]
        | Ok req =>
            match client_Do W (withUserAgent req) with
            | Err _ =>
                Adds evs [errorJSON L W "Error fetching URL" url (clock_reads st + 1)]
                     [withUserAgent req] [http_StatusOK]
            | Ok resp =>
                match io_ReadAll (io_LimitReader (resp_Body resp) bodyLimit) with
                | Err _ =>
                    Adds evs [errorJSON L W "Error fetching URL" url (clock_reads st + 2)]
                         [withUserAgent req] [http_StatusOK]
                | Ok body =>
                    ∃ out,
                      Fetched L url resp (clock_at W (clock_reads st))
                        (clock_at W (S (clock_reads st))) body out
                      ∧ Adds evs [messageJSON L out] [withUserAgent req]
                             [http_StatusOK]
                end
            end
        end.
Proof.
  intros url. unfold handleInput. fold url.
  destruct (negb (isValidURL url)).
  { destruct (runs_failure_path "Invalid URL: %s" [LStr url] "Invalid URL" url st)
      as (evs & Hrun & Hadds); [done|]. by exists evs, 1%nat. }
  pose proof (runs_fetchURL url st) as Hfetch.
  match goal with
  | |- context [mbind ?f (fetchURL L W url)] => set (report := f)
  end.
  assert (Hfail : ∀ e evs0 k0 reqs,
    runs (fetchURL L W url) st (Err e) evs0 k0 → Adds evs0 [] reqs [] →
    ∃ evs k,
      runs (fetchURL L W url ≫= report) st tt evs k
      ∧ Adds evs [errorJSON L W "Error fetching URL" url (clock_reads st + k0)]
             reqs [http_StatusOK]).
  { intros e evs0 k0 reqs Hrun0 Hadds0.
    destruct (runs_failure_path "Error fetching URL %s: %v" [LStr url; LErr e]
                "Error fetching URL" url
                (mkState (trace st ++ evs0) (clock_reads st + k0)))
      as (evs & Hrun & Hadds); [done|].
    exists (evs0 ++ evs), (k0 + 1)%nat. split.
    - by eapply runs_bind.
    - eapply Adds_app; [done | done | done | by rewrite app_nil_r | done]. }
  destruct (http_NewRequest L "GET" url) as [req|e].
  2:{ destruct (Hfail e [] 0%nat [] Hfetch Adds_nil) as (evs & k & Hrun & Hadds).
      rewrite Nat.add_0_r in Hadds. by exists evs, k. }
  destruct (client_Do W (withUserAgent req)) as [resp|e].
  2:{ destruct (Hfail e _ _ [withUserAgent req] Hfetch) as (evs & k & Hrun & Hadds);
        [by split|]. by exists evs, k. }
  destruct (io_ReadAll (io_LimitReader (resp_Body resp) bodyLimit)) as [body|e].
  2:{ destruct (Hfail e _ _ [withUserAgent req] Hfetch) as (evs & k & Hrun & Hadds);
        [by split|]. by exists evs, k. }
  destruct Hfetch as (out & Hrun0 & Hout).
  destruct (runs_publishMessage out
              (mkState ((trace st ++ [EvDo (withUserAgent req)])
                        ++ [EvLog "Processed Response: %s" [LStr (messageJSON L out)]])
                       (clock_reads st + 2 + 0)))
    as (evs & Hrun & Hadds).
  exists ([EvDo (withUserAgent req)]
          ++ ([EvLog "Processed Response: %s" [LStr (messageJSON L out)]]
              ++ (evs ++ [EvWriteHeader http_StatusOK]))), (2 + (0 + (0 + 0)))%nat.
  split.
  - eapply runs_bind; [exact Hrun0|].
    unfold json_Marshal_OutputPayload. fold (messageJSON L out).
    eapply runs_bind; [apply runs_emit|].
    eapply runs_bind; [exact Hrun | apply runs_emit].
  - exists out. split; [done|].
    eapply (Adds_app _ _ [] _ [withUserAgent req] [] [] [http_StatusOK]);
      [by split | | done..].
    eapply (Adds_app _ _ [] _ [] [] [] [http_StatusOK]); [by split | | done..].
    eapply (Adds_app _ _ _ [] [] [] [] [http_StatusOK]);
      [exact Hadds | by split | done..].
Qed.

Lemma trace_of_runs {A} (m : M A) (a : A) evs k :
  runs m initial a evs k → trace (exec m initial) = evs.
Proof. unfold runs, exec. by intros ->. Qed.

(** A call that decodes to [input] continues with the second half. *)
Lemma pubSubHandler_decoded (r : Inbound) (input : InputPayload.t) :
  decoded_request L r = Some input →
  pubSubHandler L W r = handleInput L W input.
Proof.
  unfold decoded_request, pubSubHandler.
  destruct (negb (String.eqb (Method r) http_MethodPost)); [done|].
  destruct (io_ReadAll (Body r)) as [body|]; [|done].
  destruct (json_Unmarshal (decode_PubSubMessage L) body) as [msg|]; [|done].
  destruct (decodeBase64 _) as [data|]; [|done].
  destruct (json_Unmarshal (decode_InputPayload L) data); [|done].
  by intros [= ->].
Qed.

(** The first half of the handler, by the stage at which it ends. *)
Lemma handle_stages (r : Inbound) :
  if negb (String.eqb (Method r) http_MethodPost) then
    Adds (handle L W r) [errorJSON L W "Invalid request method" EmptyString 0]
         [] [http_StatusOK]
  else
    match io_ReadAll (Body r) with
    | Err _ =>
        Adds (handle L W r) [errorJSON L W "Cannot read body" EmptyString 0]
             [] [http_StatusOK]
    | Ok body =>
        match json_Unmarshal (decode_PubSubMessage L) body with
        | Err _ =>
            Adds (handle L W r) [errorJSON L W "Error unmarshalling JSON" body 0]
                 [] [http_StatusOK]
        | Ok msg =>
            let blob := PubSubMessage.Data (PubSubMessage.Message msg) in
            match decodeBase64 blob with
            | Err _ =>
                Adds (handle L W r) [errorJSON L W "Error decoding data" blob 0]
                     [] [http_StatusOK]
            | Ok data =>
                match json_Unmarshal (decode_InputPayload L) data with
                | Err _ =>
                    Adds (handle L W r)
                         [errorJSON L W "Error unmarshalling input JSON" data 0]
                         [] [http_StatusOK]
                | Ok input =>
                    handle L W r = trace (exec (handleInput L W input) initial)
                end
            end
        end
    end.
Proof.
  unfold handle, pubSubHandler.
  destruct (negb (String.eqb (Method r) http_MethodPost)).
  { destruct (runs_failure_path "Invalid request method: %s" [LStr (Method r)]
                "Invalid request method" EmptyString initial)
      as (evs & Hrun & Hadds); [done|].
    by rewrite (trace_of_runs _ _ _ _ Hrun). }
  destruct (io_ReadAll (Body r)) as [body|e].
  2:{ destruct (runs_failure_path "Error reading request body: %v" [LErr e]
                  "Cannot read body" EmptyString initial)
        as (evs & Hrun & Hadds); [done|].
      by rewrite (trace_of_runs _ _ _ _ Hrun). }
  destruct (json_Unmarshal (decode_PubSubMessage L) body) as [msg|e].
  2:{ destruct (runs_failure_path "Error unmarshalling JSON: %v. Body: %s"
                  [LErr e; LStr body] "Error unmarshalling JSON" body initial)
        as (evs & Hrun & Hadds); [done|].
      by rewrite (trace_of_runs _ _ _ _ Hrun). }
  cbv zeta.
  destruct (decodeBase64 _) as [data|e].
  2:{ destruct (runs_failure_path "Error decoding data: %v. Data: %s"
                  [LErr e; LStr (PubSubMessage.Data (PubSubMessage.Message msg))]
                  "Error decoding data"
                  (PubSubMessage.Data (PubSubMessage.Message msg)) initial)
        as (evs & Hrun & Hadds); [done|].
      by rewrite (trace_of_runs _ _ _ _ Hrun). }
  destruct (json_Unmarshal (decode_InputPayload L) data) as [input|e]; [done|].
  destruct (runs_failure_path "Error unmarshalling input JSON: %v. Data: %s"
              [LErr e; LStr data] "Error unmarshalling input JSON" data initial)
    as (evs & Hrun & Hadds); [done|].
  by rewrite (trace_of_runs _ _ _ _ Hrun).
Qed.

(** Every inbound call publishes exactly one message, dispatches at most
    one request and writes the status 200 exactly once. *)
Lemma handle_summary (r : Inbound) :
  ∃ m reqs, Adds (handle L W r) [m] reqs [http_StatusOK]
            ∧ (length reqs ≤ 1)%nat.
Proof.
  pose proof (handle_stages r) as H.
  destruct (negb (String.eqb (Method r) http_MethodPost));
    [eexists _, []; split; [exact H | simpl; lia]|].
  destruct (io_ReadAll (Body r)) as [body|];
    [|eexists _, []; split; [exact H | simpl; lia]].
  destruct (json_Unmarshal (decode_PubSubMessage L) body) as [msg|];
    [|eexists _, []; split; [exact H | simpl; lia]].
  cbv zeta in H.
  destruct (decodeBase64 _) as [data|];
    [|eexists _, []; split; [exact H | simpl; lia]].
  destruct (json_Unmarshal (decode_InputPayload L) data) as [input|];
    [|eexists _, []; split; [exact H | simpl; lia]].
  rewrite H.
  destruct (runs_handleInput input initial) as (evs & k & Hrun & Hcase).
  rewrite (trace_of_runs _ _ _ _ Hrun).
  destruct (negb (isValidURL (InputPayload.URL input)));
    [eexists _, []; split; [exact Hcase | simpl; lia]|].
  destruct (http_NewRequest L "GET" _) as [req|];
    [|eexists _, []; split; [exact Hcase | simpl; lia]].
  destruct (client_Do W _) as [resp|];
    [|eexists _, [_]; split; [exact Hcase | simpl; lia]].
  destruct (io_ReadAll (io_LimitReader _ _)) as [body'|];
    [|eexists _, [_]; split; [exact Hcase | simpl; lia]].
  destruct Hcase as (out & _ & Hadds).
  eexists _, [_]; split; [exact Hadds | simpl; lia].
Qed.

End Runs.

(** ** The library functions *)

Example base64_hello :
  base64_DecodeString "eyJ1cmwiOiJodHRwczovL2V4YW1wbGUuY29tIn0="
  = Ok (js "{'url':'https://example.com'}").
Proof. reflexivity. Qed.

Example base64_padding2 : base64_DecodeString "YQ==" = Ok "a".
Proof. reflexivity. Qed.

Example base64_newline :
  base64_DecodeString ("YW" +:+ String "010" "Jj") = Ok "abc".
Proof. reflexivity. Qed.

Example base64_not_base64 :
  base64_DecodeString "not-base64!" = Err CorruptInputError.
Proof. reflexivity. Qed.

Example base64_missing_padding : base64_DecodeString "YQ" = Err CorruptInputError.
Proof. reflexivity. Qed.

Example json_Valid_object : json_Valid (js "{'message':'Hello'}") = true.
Proof. reflexivity. Qed.

Example json_Valid_text : json_Valid "Body Content Goes Here" = false.
Proof. reflexivity. Qed.

Example json_Valid_scalars :
  json_Valid "12" = true ∧ json_Valid "null" = true
  ∧ json_Valid (js "'text'") = true ∧ json_Valid "-1.5e+3 " = true.
Proof. by split_and!. Qed.

Example json_Valid_nested :
  json_Valid (js "{'a':[true,false,null,1.5e+3,-0.1E2,'x\n'],'b':{}}  ") = true.
Proof. reflexivity. Qed.

Example json_Valid_rejects :
  json_Valid "[1,2,]" = false ∧ json_Valid "{} {}" = false
  ∧ json_Valid "01" = false ∧ json_Valid "nul" = false
  ∧ json_Valid (js "{'a' 1}") = false ∧ json_Valid " " = false.
Proof. by split_and!. Qed.

Lemma strings_HasPrefix_iff (s pre : string) :
  strings_HasPrefix s pre = true ↔ ∃ rest, s = pre +:+ rest.
Proof.
  revert s. induction pre as [|p pre IH]; intros s; simpl.
  - split; [by exists s | done].
  - destruct s as [|c s]; simpl.
    + split; [done | by intros [rest ?]].
    + rewrite andb_true_iff, IH, Ascii.eqb_eq. split.
      * intros [-> [rest ->]]. by exists rest.
      * intros [rest [= -> ->]]. split; [done | by exists rest].
Qed.

Lemma strings_Join_two (a b sep : string) :
  strings_Join [a; b] sep = a +:+ sep +:+ b.
Proof. reflexivity. Qed.

Lemma strings_Join_cons (a b : string) (rest : list string) (sep : string) :
  strings_Join (a :: b :: rest) sep = a +:+ sep +:+ strings_Join (b :: rest) sep.
Proof. reflexivity. Qed.

Lemma json_Valid_empty : json_Valid EmptyString = false.
Proof. reflexivity. Qed.

Lemma json_Unmarshal_empty {T} (decode : string → result T) :
  json_Unmarshal decode EmptyString
  = Err (SyntaxError "unexpected end of JSON input").
Proof. reflexivity. Qed.

Lemma base64_DecodeString_empty : base64_DecodeString EmptyString = Ok EmptyString.
Proof. reflexivity. Qed.

(** A limited read passes on a prefix of the data, never longer than the
    limit. *)
Lemma limited_read_take (data : string) (term : option error) (n : Z) :
  (limited_read n data term).1 = string_take n data.
Proof.
  revert n. induction data as [|c data IH]; intros n; simpl.
  - by destruct (n <=? 0).
  - destruct (n <=? 0); [done|].
    specialize (IH (n - 1)). destruct (limited_read (n - 1) data term).
    simpl in *. by rewrite IH.
Qed.

Lemma limited_read_err (data : string) (term : option error) (n : Z) :
  (limited_read n data term).2
  = if n <=? Z.of_nat (String.length data) then None else term.
Proof.
  revert n. induction data as [|c data IH]; intros n.
  - cbn. change (Z.of_nat 0) with 0. by destruct (n <=? 0).
  - cbn [limited_read].
    destruct (n <=? 0) eqn:Hn.
    + apply Z.leb_le in Hn. simpl.
      destruct (Z.leb_spec n (Z.of_nat (S (String.length data)))); [done | lia].
    + apply Z.leb_gt in Hn.
      specialize (IH (n - 1)). destruct (limited_read (n - 1) data term).
      simpl in *. rewrite IH.
      destruct (Z.leb_spec (n - 1) (Z.of_nat (String.length data)));
        destruct (Z.leb_spec n (Z.of_nat (S (String.length data)))); done || lia.
Qed.

Lemma string_take_length (n : Z) (s : string) :
  Z.of_nat (String.length (string_take n s))
  = Z.min (Z.max n 0) (Z.of_nat (String.length s)).
Proof.
  revert n. induction s as [|c s IH]; intros n; simpl.
  - destruct (Z.leb_spec n 0); simpl; lia.
  - destruct (Z.leb_spec n 0); simpl; [lia|].
    specialize (IH (n - 1)). lia.
Qed.

Lemma string_take_prefix (n : Z) (s : string) :
  ∃ rest, s = string_take n s +:+ rest.
Proof.
  revert n. induction s as [|c s IH]; intros n; simpl.
  - exists EmptyString. by destruct (n <=? 0).
  - destruct (n <=? 0); [by eexists|].
    destruct (IH (n - 1)) as [rest Hrest]. exists rest.
    unfold String.app in *. simpl. by rewrite <-Hrest.
Qed.

Lemma string_take_all (n : Z) (s : string) :
  Z.of_nat (String.length s) ≤ n → string_take n s = s.
Proof.
  revert n. induction s as [|c s IH]; intros n Hlen; simpl in *.
  - by destruct (n <=? 0).
  - destruct (Z.leb_spec n 0); [lia|]. rewrite IH; [done | lia].
Qed.

(** The body a fetch captures. *)
Lemma io_ReadAll_LimitReader (r : Reader) (n : Z) :
  io_ReadAll (io_LimitReader r n)
  = match (if n <=? Z.of_nat (String.length (rd_data r)) then None else rd_err r) with
    | None => Ok (string_take n (rd_data r))
    | Some e => Err e
    end.
Proof.
  unfold io_ReadAll, io_LimitReader.
  pose proof (limited_read_take (rd_data r) (rd_err r) n) as Htake.
  pose proof (limited_read_err (rd_data r) (rd_err r) n) as Herr.
  destruct (limited_read n (rd_data r) (rd_err r)) as [d e]. simpl in *.
  by rewrite Htake, Herr.
Qed.

(** The loop over the response headers maps every name to its joined
    values. *)
Lemma joinHeaders_fmap (header : gmap string (list string)) :
  joinHeaders header = (λ values, strings_Join values ", ") <$> header.
Proof.
  unfold joinHeaders.
  apply (map_fold_weak_ind
           (λ r m, r = (λ values, strings_Join values ", ") <$> m)).
  - by rewrite fmap_empty.
  - intros k vs m r Hk ->. by rewrite fmap_insert.
Qed.

Lemma joinHeaders_lookup (header : gmap string (list string)) (key : string) :
  joinHeaders header !! key
  = (λ values, strings_Join values ", ") <$> header !! key.
Proof. by rewrite joinHeaders_fmap, lookup_fmap. Qed.

Lemma joinHeaders_dom (header : gmap string (list string)) :
  dom (joinHeaders header) = dom header.
Proof. by rewrite joinHeaders_fmap, dom_fmap_L. Qed.

(** The encoded object has one member per entry of the map. *)
Lemma map_members_elem (m : gmap string string) (k v : string) :
  (k, JString v) ∈ map_members m ↔ m !! k = Some v.
Proof.
  unfold map_members. rewrite list_elem_of_fmap. split.
  - intros ([k' v'] & [= -> ->] & Hin).
    rewrite merge_sort_Permutation in Hin. by apply elem_of_map_to_list in Hin.
  - intros Hk. exists (k, v). split; [done|].
    rewrite merge_sort_Permutation. by apply elem_of_map_to_list.
Qed.

#[global] Instance key_le_total : Total key_le.
Proof. intros x y. apply String.le_total. Qed.

Lemma map_members_sorted (m : gmap string string) :
  Sorted String.le (member_names (map_members m)).
Proof.
  unfold member_names, map_members. rewrite <-list_fmap_compose.
  pose proof (Sorted_merge_sort key_le (map_to_list m)) as Hsorted.
  induction Hsorted as [|x l Hl IH Hhd]; [constructor|].
  simpl. constructor; [done|]. destruct Hhd; simpl; by constructor.
Qed.

Lemma http_NewRequest_ctl (L : GoLib) (method url : string) :
  stringContainsCTLByte (before_fragment url) = true →
  http_NewRequest L method url
  = Err (UrlError "net/url: invalid control character in URL").
Proof. unfold http_NewRequest. by intros ->. Qed.

(** ** The encoded payloads *)

Lemma errorPayload_members (L : GoLib) (errorMsg url : string) (now : Time) :
  OutputPayload_members (errorPayload L errorMsg url now)
  = [("url", JString url)] ++ omitempty "error" errorMsg
    ++ [("responseTime", JNumber 0);
        ("requestTime", JString (time_Format_RFC3339Nano L (wall now)));
        ("statusCode", JNumber 0)].
Proof. reflexivity. Qed.

Lemma member_responseJson (o : OutputPayload.t) :
  member "responseJson" (OutputPayload_members o)
  = match OutputPayload.ResponseJson o with
    | EmptyString => None
    | v => Some (JString v)
    end.
Proof.
  destruct o as [u e h rb rj rt rq sc]. unfold OutputPayload_members. simpl.
  by destruct e, h, rb, rj.
Qed.

Lemma member_responseBody (o : OutputPayload.t) :
  member "responseBody" (OutputPayload_members o)
  = match OutputPayload.ResponseBody o with
    | EmptyString => None
    | v => Some (JString v)
    end.
Proof.
  destruct o as [u e h rb rj rt rq sc]. unfold OutputPayload_members. simpl.
  by destruct e, h, rb, rj.
Qed.

Lemma member_error (o : OutputPayload.t) :
  member "error" (OutputPayload_members o)
  = match OutputPayload.Error o with
    | EmptyString => None
    | v => Some (JString v)
    end.
Proof.
  destruct o as [u e h rb rj rt rq sc]. unfold OutputPayload_members. simpl.
  by destruct e, h, rb, rj.
Qed.

Lemma member_headers (o : OutputPayload.t) :
  member "headers" (OutputPayload_members o)
  = match OutputPayload.Headers o with
    | EmptyString => None
    | v => Some (JString v)
    end.
Proof.
  destruct o as [u e h rb rj rt rq sc]. unfold OutputPayload_members. simpl.
  by destruct e, h, rb, rj.
Qed.

(** ** The whole pipeline *)

Section Claims.
Context (L : GoLib) (W : World).

(** A successful fetch went through all three stages. *)
Lemma fetchURL_Ok_inv (url : string) st (out : OutputPayload.t) :
  (fetchURL L W url st).1 = Ok out →
  ∃ req resp body,
    http_NewRequest L "GET" url = Ok req
    ∧ client_Do W (withUserAgent req) = Ok resp
    ∧ io_ReadAll (io_LimitReader (resp_Body resp) bodyLimit) = Ok body
    ∧ Fetched L url resp (clock_at W (clock_reads st))
        (clock_at W (S (clock_reads st))) body out.
Proof.
  intros Hout. pose proof (runs_fetchURL L W url st) as Hrun.
  destruct (http_NewRequest L "GET" url) as [req|e] eqn:Hreq;
    [|unfold runs in Hrun; rewrite Hrun in Hout; simpl in Hout; discriminate].
  destruct (client_Do W (withUserAgent req)) as [resp|e] eqn:Hresp;
    [|unfold runs in Hrun; rewrite Hrun in Hout; simpl in Hout; discriminate].
  destruct (io_ReadAll (io_LimitReader (resp_Body resp) bodyLimit))
    as [body|e] eqn:Hbody;
    [|unfold runs in Hrun; rewrite Hrun in Hout; simpl in Hout; discriminate].
  destruct Hrun as (out' & Hrun & Hfetched).
  unfold runs in Hrun. rewrite Hrun in Hout. simpl in Hout.
  injection Hout as <-. exists req, resp, body. by split_and!.
Qed.


(** A call that decodes to [input], by the stage at which it ends. *)
Lemma handle_decoded (r : Inbound) (input : InputPayload.t) :
  decoded_request L r = Some input →
  let url := InputPayload.URL input in
  if negb (isValidURL url) then
    Adds (handle L W r) [errorJSON L W "Invalid URL" url 0] [] [http_StatusOK]
  else
    match http_NewRequest L "GET" url with
    | Err _ =>
        Adds (handle L W r) [errorJSON L W "Error fetching URL" url 0]
             [] [http_StatusOK]
    | Ok req =>
        match client_Do W (withUserAgent req) with
        | Err _ =>
            Adds (handle L W r) [errorJSON L W "Error fetching URL" url 1]
                 [withUserAgent req] [http_StatusOK]
        | Ok resp =>
            match io_ReadAll (io_LimitReader (resp_Body resp) bodyLimit) with
            | Err _ =>
                Adds (handle L W r) [errorJSON L W "Error fetching URL" url 2]
                     [withUserAgent req] [http_StatusOK]
            | Ok body =>
                ∃ out,
                  Fetched L url resp (clock_at W 0) (clock_at W 1) body out
                  ∧ Adds (handle L W r) [messageJSON L out]
                         [withUserAgent req] [http_StatusOK]
            end
        end
    end.
Proof.
  intros Hdec. unfold handle. rewrite (pubSubHandler_decoded L W r input Hdec).
  destruct (runs_handleInput L W input initial) as (evs & k & Hrun & Hcase).
  by rewrite (trace_of_runs _ _ _ _ Hrun).
Qed.

End Claims.

(** ** The claims *)

(** The sample calls, run.  The response with a JSON body is published with
    a [responseJson] member holding the body as it came, the two cookies
    joined; the text one with a [responseBody] member. *)
Example sample_call_json :
  published (handle Sample.lib Sample.world Sample.call_json)
  = [js ("{'url':'https://example.com/content.json',"
         +:+ "'headers':'{\'Content-Type\':\'application/json\',"
         +:+ "\'Set-Cookie\':\'a=1, b=2\'}',"
         +:+ "'responseJson':'{\'message\':\'Hello, World!\'}',"
         +:+ "'responseTime':111,'requestTime':'1738712251643659490ns',"
         +:+ "'statusCode':200}")].
Proof. vm_compute. reflexivity. Qed.

Example sample_call_text :
  published (handle Sample.lib Sample.world Sample.call_text)
  = [js ("{'url':'https://example.com/text',"
         +:+ "'headers':'{\'Content-Type\':\'text/plain\'}',"
         +:+ "'responseBody':'Body Content Goes Here',"
         +:+ "'responseTime':111,'requestTime':'1738712251643659490ns',"
         +:+ "'statusCode':200}")].
Proof. vm_compute. reflexivity. Qed.

(** With a topic configured the same message goes to the topic. *)
Example sample_call_text_topic :
  handle Sample.lib Sample.world_with_topic Sample.call_text
  = [EvDo (mkRequest "GET" "https://example.com/text"
             (<["User-Agent" := ["http-response-collector"]]> ∅));
     EvLog "Processed Response: %s"
       [LStr (messageJSON Sample.lib
                (OutputPayload.mk "https://example.com/text" EmptyString
                   (js "{'Content-Type':'text/plain'}") "Body Content Goes Here"
                   EmptyString 111 "1738712251643659490ns" 200))];
     EvTopicPublish "my-project" "responses"
       (messageJSON Sample.lib
          (OutputPayload.mk "https://example.com/text" EmptyString
             (js "{'Content-Type':'text/plain'}") "Body Content Goes Here"
             EmptyString 111 "1738712251643659490ns" 200))
       [("type", "request")];
     EvLog "Published message with ID: %s" [LStr "1"];
     EvWriteHeader 200].
Proof. vm_compute. reflexivity. Qed.

(** C1, as stated, fails: a response with an empty body is a successful
    fetch whose payload has neither body member.  The empty body is not
    valid JSON, so it goes to the text field, and the empty text field is
    omitted. *)
Lemma empty_body_has_no_body_field :
  ¬ (∀ (L : GoLib) (W : World) (url : string) (st : State) (out : OutputPayload.t),
       (fetchURL L W url st).1 = Ok out → exactly_one_body_field out).
Proof.
  intros Hclaim.
  specialize (Hclaim Sample.lib Sample.world "https://example.com/empty" initial
                (OutputPayload.mk "https://example.com/empty" EmptyString "{}"
                   EmptyString EmptyString 111 "1738712251643659490ns" 204)).
  destruct Hclaim as [[[v Hjson] _] | [_ [v Hbody]]].
  - vm_compute. reflexivity.
  - vm_compute in Hjson. discriminate.
  - vm_compute in Hbody. discriminate.
Qed.

(** C1, amended.  For every successful fetch the captured body is
    classified by [json.Valid]: a valid JSON body is stored verbatim in
    [ResponseJson] and written as the [responseJson] member, with no
    [responseBody] member; any other body is stored in [ResponseBody] with
    no [responseJson] member, and is written as the [responseBody] member
    unless it is empty, in which case neither member is written.  So at most
    one of the two members is written, exactly one when the body is not
    empty, and none is ever written as an empty string. *)
Theorem body_classification (L : GoLib) (W : World) (url : string) (st : State)
    (req : http_Request) (resp : http_Response) (body : string)
    (out : OutputPayload.t) :
  http_NewRequest L "GET" url = Ok req →
  client_Do W (withUserAgent req) = Ok resp →
  io_ReadAll (io_LimitReader (resp_Body resp) bodyLimit) = Ok body →
  (fetchURL L W url st).1 = Ok out →
  let ms := OutputPayload_members out in
  (json_Valid body = true →
     OutputPayload.ResponseJson out = body
     ∧ member "responseJson" ms = Some (JString body)
     ∧ member "responseBody" ms = None)
  ∧ (json_Valid body = false →
     OutputPayload.ResponseBody out = body
     ∧ member "responseJson" ms = None
     ∧ member "responseBody" ms
       = match body with
         | EmptyString => None
         | _ => Some (JString body)
         end)
  ∧ (body ≠ EmptyString → exactly_one_body_field out)
  ∧ (body = EmptyString →
     member "responseJson" ms = None ∧ member "responseBody" ms = None)
  ∧ member "responseJson" ms ≠ Some (JString EmptyString)
  ∧ member "responseBody" ms ≠ Some (JString EmptyString).
Proof.
  intros Hreq Hresp Hbody Hout.
  destruct (fetchURL_Ok_inv L W url st out Hout)
    as (req' & resp' & body' & Hreq' & Hresp' & Hbody' & Hfetched).
  rewrite Hreq in Hreq'. injection Hreq' as <-.
  rewrite Hresp in Hresp'. injection Hresp' as <-.
  rewrite Hbody in Hbody'. injection Hbody' as <-.
  unfold exactly_one_body_field. cbv zeta.
  rewrite member_responseJson, member_responseBody,
    (fetched_ResponseJson _ _ _ _ _ _ _ Hfetched),
    (fetched_ResponseBody _ _ _ _ _ _ _ Hfetched).
  split_and!.
  - intros Hvalid. rewrite Hvalid.
    destruct body; [by rewrite json_Valid_empty in Hvalid | done].
  - intros Hvalid. rewrite Hvalid. by destruct body.
  - intros Hne. destruct (json_Valid body), body; simpl; try done.
    + left. split; [by eexists | done].
    + right. split; [done | by eexists].
  - intros ->. by rewrite json_Valid_empty.
  - by destruct (json_Valid body), body.
  - by destruct (json_Valid body), body.
Qed.

Lemma body_classification_witness :
  http_NewRequest Sample.lib "GET" Sample.json_url
  = Ok (mkRequest "GET" Sample.json_url ∅)
  ∧ client_Do Sample.world (withUserAgent (mkRequest "GET" Sample.json_url ∅))
    = Ok Sample.json_response
  ∧ io_ReadAll (io_LimitReader (resp_Body Sample.json_response) bodyLimit)
    = Ok Sample.json_body
  ∧ (fetchURL Sample.lib Sample.world Sample.json_url initial).1
    = Ok Sample.json_output
  ∧ json_Valid Sample.json_body = true
  ∧ member "responseJson" (OutputPayload_members Sample.json_output)
    = Some (JString Sample.json_body)
  ∧ member "responseBody" (OutputPayload_members Sample.json_output) = None
  ∧ exactly_one_body_field Sample.json_output.
Proof.
  assert (H1 : http_NewRequest Sample.lib "GET" Sample.json_url
               = Ok (mkRequest "GET" Sample.json_url ∅)) by reflexivity.
  assert (H2 : client_Do Sample.world
                 (withUserAgent (mkRequest "GET" Sample.json_url ∅))
               = Ok Sample.json_response) by reflexivity.
  assert (H3 : io_ReadAll (io_LimitReader (resp_Body Sample.json_response) bodyLimit)
               = Ok Sample.json_body) by reflexivity.
  assert (H4 : (fetchURL Sample.lib Sample.world Sample.json_url initial).1
               = Ok Sample.json_output) by (vm_compute; reflexivity).
  assert (H5 : json_Valid Sample.json_body = true) by reflexivity.
  destruct (body_classification Sample.lib Sample.world Sample.json_url initial
              _ _ _ _ H1 H2 H3 H4) as (Hjson & _ & Hone & _).
  destruct (Hjson H5) as (_ & Hm1 & Hm2).
  split_and!; try assumption.
  apply Hone. discriminate.
Defined.

(** C2.  Whatever the inbound call and whatever stage fails, the handler
    writes the status 200, once, and the call completes with it. *)
Theorem pubSubHandler_always_acknowledges (L : GoLib) (W : World) (r : Inbound) :
  written (handle L W r) = [http_StatusOK]
  ∧ response_status (handle L W r) = 200.
Proof.
  destruct (handle_summary L W r) as (m & reqs & [_ _ Hw] & _).
  unfold response_status. by rewrite Hw.
Qed.

(** C3 fails on the code.  The failure payload is an [OutputPayload] whose
    [ResponseTime] and [StatusCode] fields have no [omitempty] tag, so the
    published failure carries [responseTime] and [statusCode] members, both
    0, next to [url], [error] and [requestTime].  Here for a GET call. *)
Theorem failure_payload_has_responseTime_and_statusCode :
  published (handle Sample.lib Sample.world Sample.call_get)
  = [js ("{'url':'','error':'Invalid request method','responseTime':0,"
         +:+ "'requestTime':'1738712251643659490ns','statusCode':0}")]
  ∧ ∀ (L : GoLib) (errorMsg url : string) (now : Time),
      let ms := OutputPayload_members (errorPayload L errorMsg url now) in
      member "responseTime" ms = Some (JNumber 0)
      ∧ member "statusCode" ms = Some (JNumber 0)
      ∧ member "headers" ms = None
      ∧ member "responseBody" ms = None
      ∧ member "responseJson" ms = None.
Proof.
  split; [vm_compute; reflexivity|].
  intros L errorMsg url now ms. subst ms.
  rewrite member_headers, member_responseBody, member_responseJson.
  rewrite errorPayload_members. by destruct errorMsg.
Qed.

(** C4.  For a decoded request the URL check passes exactly when the URL
    starts with [http://] or [https://].  When it passes, the outcome of
    the call is the outcome of the fetch of that URL: the payload fetchURL
    returns, which has no error, or the fetch failure.  When it does not,
    the outcome is the failure whose [error] member is [Invalid URL] and
    whose [url] member echoes the URL, with none of the response fields,
    and no request is dispatched. *)
Theorem fetch_iff_scheme_prefix (L : GoLib) (W : World) (r : Inbound)
    (input : InputPayload.t) :
  decoded_request L r = Some input →
  let url := InputPayload.URL input in
  (isValidURL url = true
   ↔ (∃ rest, url = "http://" +:+ rest) ∨ (∃ rest, url = "https://" +:+ rest))
  ∧ (isValidURL url = true →
     match (fetchURL L W url initial).1 with
     | Ok out =>
         published (handle L W r) = [messageJSON L out]
         ∧ OutputPayload.URL out = url
         ∧ OutputPayload.Error out = EmptyString
         ∧ member "error" (OutputPayload_members out) = None
     | Err _ =>
         ∃ k,
           let failure := errorPayload L "Error fetching URL" url (clock_at W k) in
           published (handle L W r) = [errorJSON L W "Error fetching URL" url k]
           ∧ published (handle L W r) = [messageJSON L failure]
           ∧ member "error" (OutputPayload_members failure)
             = Some (JString "Error fetching URL")
     end)
  ∧ (isValidURL url = false →
     let failure := errorPayload L "Invalid URL" url (clock_at W 0) in
     published (handle L W r) = [errorJSON L W "Invalid URL" url 0]
     ∧ published (handle L W r) = [messageJSON L failure]
     ∧ OutputPayload.URL failure = url
     ∧ OutputPayload.Error failure = "Invalid URL"
     ∧ member "url" (OutputPayload_members failure) = Some (JString url)
     ∧ member "error" (OutputPayload_members failure) = Some (JString "Invalid URL")
     ∧ failure_shaped failure
     ∧ dispatched (handle L W r) = []
     ∧ response_status (handle L W r) = 200).
Proof.
  intros Hdec url. pose proof (handle_decoded L W r input Hdec) as Hcase.
  fold url in Hcase. cbv zeta in Hcase. split_and!.
  - unfold isValidURL. by rewrite orb_true_iff, !strings_HasPrefix_iff.
  - intros Hvalid. rewrite Hvalid in Hcase. simpl in Hcase.
    pose proof (runs_fetchURL L W url initial) as Hrun.
    destruct (http_NewRequest L "GET" url) as [req|e].
    2:{ unfold runs in Hrun. rewrite Hrun. simpl. exists 0%nat.
        destruct Hcase as [Hpub _ _]. by split_and!. }
    destruct (client_Do W (withUserAgent req)) as [resp|e].
    2:{ unfold runs in Hrun. rewrite Hrun. simpl. exists 1%nat.
        destruct Hcase as [Hpub _ _]. by split_and!. }
    destruct (io_ReadAll (io_LimitReader (resp_Body resp) bodyLimit)) as [body|e].
    2:{ unfold runs in Hrun. rewrite Hrun. simpl. exists 2%nat.
        destruct Hcase as [Hpub _ _]. by split_and!. }
    destruct Hrun as (out & Hrun & Hout). unfold runs in Hrun. rewrite Hrun.
    cbn [fst].
    destruct Hcase as (out' & Hout' & [Hpub _ _]). rewrite Hpub.
    assert (Heq : out' = out).
    { destruct out, out', Hout, Hout'. simpl in *. congruence. }
    subst out'. split_and!.
    + done.
    + by destruct Hout.
    + by destruct Hout.
    + rewrite member_error. by destruct Hout as [_ -> _ _ _ _ _ _].
  - intros Hinvalid. rewrite Hinvalid in Hcase. simpl in Hcase.
    destruct Hcase as [Hpub Hdis Hw]. cbv zeta. split_and!; try done.
    unfold response_status. by rewrite Hw.
Qed.

Lemma fetch_iff_scheme_prefix_witness :
  decoded_request Sample.lib Sample.call_ftp
  = Some (InputPayload.mk "ftp://example.com/file")
  ∧ isValidURL "ftp://example.com/file" = false
  ∧ published (handle Sample.lib Sample.world Sample.call_ftp)
    = [js ("{'url':'ftp://example.com/file','error':'Invalid URL',"
           +:+ "'responseTime':0,'requestTime':'1738712251643659490ns',"
           +:+ "'statusCode':0}")]
  ∧ member "error"
      (OutputPayload_members
         (errorPayload Sample.lib "Invalid URL" "ftp://example.com/file"
            (clock_at Sample.world 0)))
    = Some (JString "Invalid URL")
  ∧ dispatched (handle Sample.lib Sample.world Sample.call_ftp) = [].
Proof.
  assert (Hdec : decoded_request Sample.lib Sample.call_ftp
                 = Some (InputPayload.mk "ftp://example.com/file"))
    by (vm_compute; reflexivity).
  assert (Hinvalid : isValidURL "ftp://example.com/file" = false) by reflexivity.
  destruct (fetch_iff_scheme_prefix Sample.lib Sample.world Sample.call_ftp _ Hdec)
    as (_ & _ & Hno).
  destruct (Hno Hinvalid) as (_ & Hpub & _ & _ & _ & Herr & _ & Hdis & _).
  split_and!; [exact Hdec | exact Hinvalid | exact Hpub | exact Herr | exact Hdis].
Defined.



(** C6.  For every successful fetch the header map has exactly the names
    of the response headers, each mapped to its values joined with a comma
    and a space in the order they came, and the [Headers] field of the
    payload, written as the [headers] member, is the JSON encoding of that
    map: one member per name, the names in byte order. *)
Theorem headers_joined_and_encoded (L : GoLib) (W : World) (url : string)
    (st : State) (req : http_Request) (resp : http_Response)
    (out : OutputPayload.t) :
  http_NewRequest L "GET" url = Ok req →
  client_Do W (withUserAgent req) = Ok resp →
  (fetchURL L W url st).1 = Ok out →
  let headers := joinHeaders (resp_Header resp) in
  dom headers = dom (resp_Header resp)
  ∧ (∀ key values,
       resp_Header resp !! key = Some values →
       headers !! key = Some (strings_Join values ", "))
  ∧ (∀ a b rest,
       strings_Join (a :: b :: rest) ", "
       = a +:+ ", " +:+ strings_Join (b :: rest) ", ")
  ∧ json_Marshal_map L headers = Ok (OutputPayload.Headers out)
  ∧ (∀ key value,
       (key, JString value) ∈ map_members headers ↔ headers !! key = Some value)
  ∧ Sorted String.le (member_names (map_members headers))
  ∧ member "headers" (OutputPayload_members out)
    = Some (JString (OutputPayload.Headers out)).
Proof.
  intros Hreq Hresp Hout headers.
  destruct (fetchURL_Ok_inv L W url st out Hout)
    as (req' & resp' & body' & Hreq' & Hresp' & Hbody' & Hfetched).
  rewrite Hreq in Hreq'. injection Hreq' as <-.
  rewrite Hresp in Hresp'. injection Hresp' as <-.
  split_and!.
  - apply joinHeaders_dom.
  - intros key values Hkey. subst headers. by rewrite joinHeaders_lookup, Hkey.
  - intros a b rest. apply strings_Join_cons.
  - unfold json_Marshal_map. by rewrite (fetched_Headers _ _ _ _ _ _ _ Hfetched).
  - apply map_members_elem.
  - apply map_members_sorted.
  - rewrite member_headers, (fetched_Headers _ _ _ _ _ _ _ Hfetched). reflexivity.
Qed.

Lemma headers_joined_and_encoded_witness :
  http_NewRequest Sample.lib "GET" Sample.json_url
  = Ok (mkRequest "GET" Sample.json_url ∅)
  ∧ client_Do Sample.world (withUserAgent (mkRequest "GET" Sample.json_url ∅))
    = Ok Sample.json_response
  ∧ (fetchURL Sample.lib Sample.world Sample.json_url initial).1
    = Ok Sample.json_output
  ∧ joinHeaders (resp_Header Sample.json_response) !! "Set-Cookie"
    = Some "a=1, b=2"
  ∧ json_Marshal_map Sample.lib (joinHeaders (resp_Header Sample.json_response))
    = Ok (js "{'Content-Type':'application/json','Set-Cookie':'a=1, b=2'}").
Proof.
  assert (H1 : http_NewRequest Sample.lib "GET" Sample.json_url
               = Ok (mkRequest "GET" Sample.json_url ∅)) by reflexivity.
  assert (H2 : client_Do Sample.world
                 (withUserAgent (mkRequest "GET" Sample.json_url ∅))
               = Ok Sample.json_response) by reflexivity.
  assert (H3 : (fetchURL Sample.lib Sample.world Sample.json_url initial).1
               = Ok Sample.json_output) by (vm_compute; reflexivity).
  destruct (headers_joined_and_encoded Sample.lib Sample.world Sample.json_url
              initial _ _ _ H1 H2 H3) as (_ & Hjoin & _ & Henc & _).
  split_and!; try assumption.
  apply (Hjoin "Set-Cookie" ["a=1"; "b=2"]). vm_compute. reflexivity.
Defined.

(** C7.  The body of a response is read up to 10 MiB.  Whatever the length
    of the body the server delivers, provided the read does not fail before
    the limit is reached, the fetch succeeds with the first 10 MiB of it
    (all of it when it is shorter), classified as usual, and the handler
    publishes that payload. *)
Theorem body_truncated_at_limit (L : GoLib) (W : World) (r : Inbound)
    (input : InputPayload.t) (req : http_Request) (resp : http_Response) :
  decoded_request L r = Some input →
  let url := InputPayload.URL input in
  let data := rd_data (resp_Body resp) in
  let body := string_take bodyLimit data in
  isValidURL url = true →
  http_NewRequest L "GET" url = Ok req →
  client_Do W (withUserAgent req) = Ok resp →
  rd_err (resp_Body resp) = None ∨ bodyLimit ≤ Z.of_nat (String.length data) →
  bodyLimit = 10485760
  ∧ io_ReadAll (io_LimitReader (resp_Body resp) bodyLimit) = Ok body
  ∧ Z.of_nat (String.length body) ≤ bodyLimit
  ∧ (∃ rest, data = body +:+ rest)
  ∧ (Z.of_nat (String.length data) ≤ bodyLimit → body = data)
  ∧ (bodyLimit < Z.of_nat (String.length data) →
     Z.of_nat (String.length body) = bodyLimit)
  ∧ ∃ out,
      (fetchURL L W url initial).1 = Ok out
      ∧ OutputPayload.Error out = EmptyString
      ∧ OutputPayload.ResponseJson out = (if json_Valid body then body else EmptyString)
      ∧ OutputPayload.ResponseBody out = (if json_Valid body then EmptyString else body)
      ∧ published (handle L W r) = [messageJSON L out]
      ∧ response_status (handle L W r) = 200.
Proof.
  intros Hdec url data body Hvalid Hreq Hresp Hread.
  assert (Hbody : io_ReadAll (io_LimitReader (resp_Body resp) bodyLimit) = Ok body).
  { rewrite io_ReadAll_LimitReader. fold data.
    destruct (Z.leb_spec bodyLimit (Z.of_nat (String.length data))); [done|].
    destruct Hread as [-> | ?]; [done | lia]. }
  pose proof (string_take_length bodyLimit data) as Hlen. fold body in Hlen.
  assert (0 < bodyLimit) by (unfold bodyLimit; lia).
  split_and!.
  - reflexivity.
  - exact Hbody.
  - lia.
  - apply string_take_prefix.
  - intros Hshort. apply string_take_all. lia.
  - lia.
  - pose proof (handle_decoded L W r input Hdec) as Hcase.
    fold url in Hcase. cbv zeta in Hcase.
    rewrite Hvalid, Hreq, Hresp, Hbody in Hcase. simpl in Hcase.
    destruct Hcase as (out & Hout & [Hpub _ Hw]).
    pose proof (runs_fetchURL L W url initial) as Hrun.
    rewrite Hreq, Hresp, Hbody in Hrun. destruct Hrun as (out' & Hrun & Hout').
    exists out. split_and!.
    + unfold runs in Hrun. rewrite Hrun. simpl. f_equal.
      destruct out, out', Hout, Hout'. simpl in *. congruence.
    + by destruct Hout.
    + by destruct Hout.
    + by destruct Hout.
    + exact Hpub.
    + unfold response_status. by rewrite Hw.
Qed.

Lemma string_repeat_length (n : nat) (c : ascii) :
  String.length (string_repeat n c) = n.
Proof. induction n as [|n IH]; [done|]. cbn [string_repeat String.length]. by rewrite IH. Qed.

Lemma big_data_length : Z.of_nat (String.length Big.data) = bodyLimit + 5.
Proof.
  unfold Big.data. rewrite string_repeat_length. apply Z2Nat.id.
  unfold bodyLimit. lia.
Qed.

Lemma body_truncated_at_limit_witness :
  decoded_request Sample.lib Sample.call_json = Some (InputPayload.mk Sample.json_url)
  ∧ isValidURL Sample.json_url = true
  ∧ http_NewRequest Sample.lib "GET" Sample.json_url
    = Ok (mkRequest "GET" Sample.json_url ∅)
  ∧ client_Do Big.world (withUserAgent (mkRequest "GET" Sample.json_url ∅))
    = Ok Big.response
  ∧ rd_err (resp_Body Big.response) = Some (ReadError "connection reset by peer")
  ∧ Z.of_nat (String.length (rd_data (resp_Body Big.response))) = bodyLimit + 5
  ∧ bodyLimit ≤ Z.of_nat (String.length (rd_data (resp_Body Big.response)))
  ∧ io_ReadAll (io_LimitReader (resp_Body Big.response) bodyLimit)
    = Ok (string_take bodyLimit (rd_data (resp_Body Big.response)))
  ∧ Z.of_nat
      (String.length (string_take bodyLimit (rd_data (resp_Body Big.response))))
    = bodyLimit
  ∧ ∃ out,
      (fetchURL Sample.lib Big.world Sample.json_url initial).1 = Ok out
      ∧ OutputPayload.Error out = EmptyString
      ∧ published (handle Sample.lib Big.world Sample.call_json)
        = [messageJSON Sample.lib out]
      ∧ response_status (handle Sample.lib Big.world Sample.call_json) = 200.
Proof.
  assert (H0 : decoded_request Sample.lib Sample.call_json
               = Some (InputPayload.mk Sample.json_url)) by (vm_compute; reflexivity).
  assert (H1 : isValidURL Sample.json_url = true) by reflexivity.
  assert (H2 : http_NewRequest Sample.lib "GET" Sample.json_url
               = Ok (mkRequest "GET" Sample.json_url ∅)) by reflexivity.
  assert (H3 : client_Do Big.world
                 (withUserAgent (mkRequest "GET" Sample.json_url ∅))
               = Ok Big.response) by exact eq_refl.
  assert (H4 : rd_err (resp_Body Big.response)
               = Some (ReadError "connection reset by peer")) by exact eq_refl.
  assert (Hlen : Z.of_nat (String.length (rd_data (resp_Body Big.response)))
                 = bodyLimit + 5) by exact big_data_length.
  assert (H5 : bodyLimit ≤ Z.of_nat (String.length (rd_data (resp_Body Big.response))))
    by (rewrite Hlen; lia).
  destruct (body_truncated_at_limit Sample.lib Big.world Sample.call_json
              (InputPayload.mk Sample.json_url) (mkRequest "GET" Sample.json_url ∅)
              Big.response H0 H1 H2 H3 (or_intror H5))
    as (_ & Hread & _ & _ & _ & Htrunc & out & Hfetch & Herr & _ & _ & Hpub & Hst).
  split; [exact H0|]. split; [exact H1|]. split; [exact H2|].
  split; [exact H3|]. split; [exact H4|]. split; [exact Hlen|].
  split; [exact H5|]. split; [exact Hread|].
  split; [apply Htrunc; rewrite Hlen; lia|].
  exists out.
  split; [exact Hfetch|]. split; [exact Herr|]. split; [exact Hpub | exact Hst].
Defined.

(** A limited read with a small limit, to see the truncation: the first
    three bytes, and no error even though the source fails later on. *)
Example limited_read_truncates :
  io_ReadAll (io_LimitReader (mkReader "abcdef" (Some (ReadError "reset"))) 3)
  = Ok "abc".
Proof. reflexivity. Qed.

Example limited_read_short_source_fails :
  io_ReadAll (io_LimitReader (mkReader "ab" (Some (ReadError "reset"))) 3)
  = Err (ReadError "reset").
Proof. reflexivity. Qed.

(** C8.  When the payload blob of the envelope is not valid base64, the
    handler publishes one message, the failure whose [url] is the blob as
    received, dispatches nothing, and acknowledges the call with 200. *)
Theorem invalid_base64_publishes_failure (L : GoLib) (W : World) (r : Inbound)
    (body : string) (msg : PubSubMessage.t) :
  Method r = http_MethodPost →
  io_ReadAll (Body r) = Ok body →
  json_Unmarshal (decode_PubSubMessage L) body = Ok msg →
  let blob := PubSubMessage.Data (PubSubMessage.Message msg) in
  is_ok (base64_DecodeString blob) = false →
  let failure := errorPayload L "Error decoding data" blob (clock_at W 0) in
  published (handle L W r) = [messageJSON L failure]
  ∧ OutputPayload.URL failure = blob
  ∧ member "url" (OutputPayload_members failure) = Some (JString blob)
  ∧ member "error" (OutputPayload_members failure)
    = Some (JString "Error decoding data")
  ∧ dispatched (handle L W r) = []
  ∧ response_status (handle L W r) = 200.
Proof.
  intros Hmethod Hread Hmsg blob Hbad failure.
  pose proof (handle_stages L W r) as Hcase.
  rewrite Hmethod, Hread, Hmsg in Hcase. simpl in Hcase. fold blob in Hcase.
  unfold decodeBase64 in Hcase.
  destruct (base64_DecodeString blob); [done|].
  destruct Hcase as [Hpub Hdis Hw].
  split_and!; try done. unfold response_status. by rewrite Hw.
Qed.

Lemma invalid_base64_publishes_failure_witness :
  Method Sample.call_not_base64 = http_MethodPost
  ∧ io_ReadAll (Body Sample.call_not_base64) = Ok (Sample.envelope "not-base64!")
  ∧ json_Unmarshal (decode_PubSubMessage Sample.lib) (Sample.envelope "not-base64!")
    = Ok (Sample.message_with "not-base64!")
  ∧ is_ok (base64_DecodeString "not-base64!") = false
  ∧ published (handle Sample.lib Sample.world Sample.call_not_base64)
    = [js ("{'url':'not-base64!','error':'Error decoding data','responseTime':0,"
           +:+ "'requestTime':'1738712251643659490ns','statusCode':0}")]
  ∧ response_status (handle Sample.lib Sample.world Sample.call_not_base64) = 200.
Proof.
  assert (H1 : Method Sample.call_not_base64 = http_MethodPost) by reflexivity.
  assert (H2 : io_ReadAll (Body Sample.call_not_base64)
               = Ok (Sample.envelope "not-base64!")) by reflexivity.
  assert (H3 : json_Unmarshal (decode_PubSubMessage Sample.lib)
                 (Sample.envelope "not-base64!")
               = Ok (Sample.message_with "not-base64!")) by (vm_compute; reflexivity).
  assert (H4 : is_ok (base64_DecodeString "not-base64!") = false) by reflexivity.
  destruct (invalid_base64_publishes_failure Sample.lib Sample.world
              Sample.call_not_base64 _ _ H1 H2 H3 H4) as (Hpub & _ & _ & _ & _ & Hst).
  split_and!; assumption.
Defined.

(** C9.  When the data field of the envelope is absent (the field of the
    Go struct keeps its zero value, the empty string) or empty, the base64
    decoding succeeds with an empty payload, the parse of that payload
    fails, and the handler publishes the parse failure, not the decoding
    failure. *)
Theorem empty_data_fails_at_parse_stage (L : GoLib) (W : World) (r : Inbound)
    (body : string) (msg : PubSubMessage.t) :
  Method r = http_MethodPost →
  io_ReadAll (Body r) = Ok body →
  json_Unmarshal (decode_PubSubMessage L) body = Ok msg →
  PubSubMessage.Data (PubSubMessage.Message msg) = EmptyString →
  decodeBase64 (PubSubMessage.Data (PubSubMessage.Message msg)) = Ok EmptyString
  ∧ is_ok (json_Unmarshal (decode_InputPayload L) EmptyString) = false
  ∧ published (handle L W r)
    = [messageJSON L (errorPayload L "Error unmarshalling input JSON" EmptyString
                        (clock_at W 0))]
  ∧ dispatched (handle L W r) = []
  ∧ response_status (handle L W r) = 200.
Proof.
  intros Hmethod Hread Hmsg Hdata.
  pose proof (handle_stages L W r) as Hcase.
  rewrite Hmethod, Hread, Hmsg in Hcase. simpl in Hcase.
  rewrite Hdata in *. simpl in Hcase.
  destruct Hcase as [Hpub Hdis Hw].
  split_and!; try done. unfold response_status. by rewrite Hw.
Qed.

Lemma empty_data_fails_at_parse_stage_witness :
  Method Sample.call_no_data = http_MethodPost
  ∧ io_ReadAll (Body Sample.call_no_data) = Ok Sample.envelope_without_data
  ∧ json_Unmarshal (decode_PubSubMessage Sample.lib) Sample.envelope_without_data
    = Ok (Sample.message_with EmptyString)
  ∧ published (handle Sample.lib Sample.world Sample.call_no_data)
    = [js ("{'url':'','error':'Error unmarshalling input JSON','responseTime':0,"
           +:+ "'requestTime':'1738712251643659490ns','statusCode':0}")].
Proof.
  assert (H1 : Method Sample.call_no_data = http_MethodPost) by reflexivity.
  assert (H2 : io_ReadAll (Body Sample.call_no_data)
               = Ok Sample.envelope_without_data) by reflexivity.
  assert (H3 : json_Unmarshal (decode_PubSubMessage Sample.lib)
                 Sample.envelope_without_data
               = Ok (Sample.message_with EmptyString)) by (vm_compute; reflexivity).
  destruct (empty_data_fails_at_parse_stage Sample.lib Sample.world
              Sample.call_no_data _ _ H1 H2 H3 eq_refl) as (_ & _ & Hpub & _).
  split_and!; assumption.
Defined.

(** C10.  A URL that starts with [http://] or [https://] and has a control
    character before its fragment passes the URL check, but the request for
    it cannot be built: nothing is dispatched, and the handler publishes
    the failure whose [error] member is [Error fetching URL], the fetch
    classification, not [Invalid URL], and whose [url] member is the URL. *)
Theorem valid_url_may_never_be_dispatched (L : GoLib) (W : World) (r : Inbound)
    (input : InputPayload.t) :
  decoded_request L r = Some input →
  let url := InputPayload.URL input in
  let failure := errorPayload L "Error fetching URL" url (clock_at W 0) in
  isValidURL url = true →
  stringContainsCTLByte (before_fragment url) = true →
  (fetchURL L W url initial).1
  = Err (UrlError "net/url: invalid control character in URL")
  ∧ published (handle L W r)
    = [messageJSON L (errorPayload L "Error fetching URL" url (clock_at W 0))]
  ∧ OutputPayload.Error failure = "Error fetching URL"
  ∧ OutputPayload.Error failure ≠ "Invalid URL"
  ∧ member "error" (OutputPayload_members failure)
    = Some (JString "Error fetching URL")
  ∧ member "url" (OutputPayload_members failure) = Some (JString url)
  ∧ failure_shaped failure
  ∧ dispatched (handle L W r) = []
  ∧ response_status (handle L W r) = 200.
Proof.
  intros Hdec url failure Hvalid Hctl.
  pose proof (handle_decoded L W r input Hdec) as Hcase.
  fold url in Hcase. cbv zeta in Hcase. rewrite Hvalid in Hcase. simpl in Hcase.
  pose proof (runs_fetchURL L W url initial) as Hrun.
  rewrite (http_NewRequest_ctl L "GET" url Hctl) in Hcase, Hrun.
  destruct Hcase as [Hpub Hdis Hw]. split_and!; try done.
  - unfold runs in Hrun. by rewrite Hrun.
  - unfold response_status. by rewrite Hw.
Qed.

Lemma valid_url_may_never_be_dispatched_witness :
  decoded_request Sample.lib Sample.call_ctl = Some (InputPayload.mk Sample.ctl_url)
  ∧ isValidURL Sample.ctl_url = true
  ∧ stringContainsCTLByte (before_fragment Sample.ctl_url) = true
  ∧ dispatched (handle Sample.lib Sample.world Sample.call_ctl) = []
  ∧ published (handle Sample.lib Sample.world Sample.call_ctl)
    = [errorJSON Sample.lib Sample.world "Error fetching URL" Sample.ctl_url 0]
  ∧ published (handle Sample.lib Sample.world Sample.call_ctl)
    = [js "{'url':'http://example.com/" +:+ String "001" EmptyString
       +:+ js ("','error':'Error fetching URL','responseTime':0,"
               +:+ "'requestTime':'1738712251643659490ns','statusCode':0}")]
  ∧ member "error"
      (OutputPayload_members
         (errorPayload Sample.lib "Error fetching URL" Sample.ctl_url
            (clock_at Sample.world 0)))
    = Some (JString "Error fetching URL").
Proof.
  assert (H1 : decoded_request Sample.lib Sample.call_ctl
               = Some (InputPayload.mk Sample.ctl_url)) by (vm_compute; reflexivity).
  assert (H2 : isValidURL Sample.ctl_url = true) by reflexivity.
  assert (H3 : stringContainsCTLByte (before_fragment Sample.ctl_url) = true)
    by reflexivity.
  destruct (valid_url_may_never_be_dispatched Sample.lib Sample.world Sample.call_ctl
              _ H1 H2 H3) as (_ & Hpub & _ & _ & Herr & _ & _ & Hdis & _).
  split_and!; [exact H1 | exact H2 | exact H3 | exact Hdis | exact Hpub
              | exact Hpub | exact Herr].
Defined.

(** A request that is built but cannot be dispatched (here: no such host)
    is reported in the same way, after the client was handed the request. *)
Example sample_call_fail :
  published (handle Sample.lib Sample.world Sample.call_fail)
  = [js ("{'url':'https://fail.example.com','error':'Error fetching URL',"
         +:+ "'responseTime':0,'requestTime':'1738712251754659490ns',"
         +:+ "'statusCode':0}")]
  ∧ length (dispatched (handle Sample.lib Sample.world Sample.call_fail)) = 1%nat.
Proof. split; vm_compute; reflexivity. Qed.

(** ** Further properties of the handler *)

Lemma status_of_written (tr : list Event) :
  written tr = [http_StatusOK] → response_status tr = 200.
Proof. unfold response_status. by intros ->. Qed.

(** X1.  A call whose method is not POST (the comparison is on the exact
    bytes) is reported as the failure [Invalid request method] with an
    empty url and acknowledged with 200; its body is not looked at and
    nothing is dispatched. *)
Theorem non_post_is_reported (L : GoLib) (W : World) (r : Inbound) :
  Method r ≠ "POST" →
  published (handle L W r)
  = [messageJSON L (errorPayload L "Invalid request method" EmptyString (clock_at W 0))]
  ∧ dispatched (handle L W r) = []
  ∧ written (handle L W r) = [200].
Proof.
  intros Hmethod. pose proof (handle_stages L W r) as Hcase.
  apply String.eqb_neq in Hmethod. unfold http_MethodPost in Hcase.
  rewrite Hmethod in Hcase. simpl in Hcase. by destruct Hcase.
Qed.

Lemma non_post_is_reported_witness :
  Method (mkInbound "post" (mkReader "ignored" None)) ≠ "POST"
  ∧ published (handle Sample.lib Sample.world (mkInbound "post" (mkReader "ignored" None)))
    = [js ("{'url':'','error':'Invalid request method','responseTime':0,"
           +:+ "'requestTime':'1738712251643659490ns','statusCode':0}")].
Proof.
  assert (H : Method (mkInbound "post" (mkReader "ignored" None)) ≠ "POST")
    by discriminate.
  destruct (non_post_is_reported Sample.lib Sample.world _ H) as (Hpub & _).
  split; assumption.
Defined.

(** X2.  A POST whose body cannot be read is reported as the failure
    [Cannot read body] with an empty url, whatever was read before the
    error, and acknowledged with 200. *)
Theorem unreadable_body_is_reported (L : GoLib) (W : World) (r : Inbound)
    (e : error) :
  Method r = "POST" →
  rd_err (Body r) = Some e →
  published (handle L W r)
  = [messageJSON L (errorPayload L "Cannot read body" EmptyString (clock_at W 0))]
  ∧ dispatched (handle L W r) = []
  ∧ written (handle L W r) = [200].
Proof.
  intros Hmethod Herr. pose proof (handle_stages L W r) as Hcase.
  unfold http_MethodPost, io_ReadAll in Hcase.
  rewrite Hmethod, Herr in Hcase. simpl in Hcase. by destruct Hcase.
Qed.

Lemma unreadable_body_is_reported_witness :
  Method More.call_unreadable = "POST"
  ∧ rd_err (Body More.call_unreadable) = Some (ReadError "unexpected EOF")
  ∧ published (handle Sample.lib Sample.world More.call_unreadable)
    = [js ("{'url':'','error':'Cannot read body','responseTime':0,"
           +:+ "'requestTime':'1738712251643659490ns','statusCode':0}")].
Proof.
  destruct (unreadable_body_is_reported Sample.lib Sample.world
              More.call_unreadable _ eq_refl eq_refl) as (Hpub & _).
  split_and!; [reflexivity | reflexivity | assumption].
Defined.

(** X3.  A POST whose body is not one JSON value, or cannot be decoded
    into the envelope, is reported as the failure [Error unmarshalling
    JSON] whose url is the whole body as received. *)
Theorem bad_envelope_is_reported (L : GoLib) (W : World) (r : Inbound)
    (body : string) :
  Method r = "POST" →
  io_ReadAll (Body r) = Ok body →
  json_Valid body = false ∨ is_ok (decode_PubSubMessage L body) = false →
  published (handle L W r)
  = [messageJSON L (errorPayload L "Error unmarshalling JSON" body (clock_at W 0))]
  ∧ dispatched (handle L W r) = []
  ∧ written (handle L W r) = [200].
Proof.
  intros Hmethod Hread Hbad. pose proof (handle_stages L W r) as Hcase.
  unfold http_MethodPost in Hcase. rewrite Hmethod, Hread in Hcase.
  simpl in Hcase.
  assert (Hfail : is_ok (json_Unmarshal (decode_PubSubMessage L) body) = false).
  { unfold json_Unmarshal, json_Valid in *.
    destruct (checkValid body); [done|]. by destruct Hbad. }
  destruct (json_Unmarshal (decode_PubSubMessage L) body); [done|].
  by destruct Hcase.
Qed.

Lemma bad_envelope_is_reported_witness :
  Method More.call_not_json = "POST"
  ∧ io_ReadAll (Body More.call_not_json) = Ok "hello"
  ∧ json_Valid "hello" = false
  ∧ published (handle Sample.lib Sample.world More.call_not_json)
    = [js ("{'url':'hello','error':'Error unmarshalling JSON','responseTime':0,"
           +:+ "'requestTime':'1738712251643659490ns','statusCode':0}")].
Proof.
  destruct (bad_envelope_is_reported Sample.lib Sample.world More.call_not_json
              "hello" eq_refl eq_refl (or_introl eq_refl)) as (Hpub & _).
  split_and!; [reflexivity | reflexivity | reflexivity | assumption].
Defined.

(** X4.  When the blob decodes from base64 but the decoded text is not one
    JSON value, or cannot be decoded into the input payload, the call is
    reported as the failure [Error unmarshalling input JSON] whose url is
    the decoded text, not the blob. *)
Theorem bad_payload_is_reported (L : GoLib) (W : World) (r : Inbound)
    (body data : string) (msg : PubSubMessage.t) :
  Method r = "POST" →
  io_ReadAll (Body r) = Ok body →
  json_Unmarshal (decode_PubSubMessage L) body = Ok msg →
  decodeBase64 (PubSubMessage.Data (PubSubMessage.Message msg)) = Ok data →
  json_Valid data = false ∨ is_ok (decode_InputPayload L data) = false →
  published (handle L W r)
  = [messageJSON L (errorPayload L "Error unmarshalling input JSON" data
                      (clock_at W 0))]
  ∧ dispatched (handle L W r) = []
  ∧ written (handle L W r) = [200].
Proof.
  intros Hmethod Hread Hmsg Hdata Hbad. pose proof (handle_stages L W r) as Hcase.
  unfold http_MethodPost in Hcase. rewrite Hmethod, Hread, Hmsg in Hcase.
  simpl in Hcase. rewrite Hdata in Hcase.
  assert (Hfail : is_ok (json_Unmarshal (decode_InputPayload L) data) = false).
  { unfold json_Unmarshal, json_Valid in *.
    destruct (checkValid data); [done|]. by destruct Hbad. }
  destruct (json_Unmarshal (decode_InputPayload L) data); [done|].
  by destruct Hcase.
Qed.

Lemma bad_payload_is_reported_witness :
  Method More.call_payload_not_json = "POST"
  ∧ io_ReadAll (Body More.call_payload_not_json)
    = Ok (Sample.envelope "cGxhaW4gdGV4dA==")
  ∧ json_Unmarshal (decode_PubSubMessage Sample.lib)
      (Sample.envelope "cGxhaW4gdGV4dA==")
    = Ok (Sample.message_with "cGxhaW4gdGV4dA==")
  ∧ decodeBase64 "cGxhaW4gdGV4dA==" = Ok "plain text"
  ∧ json_Valid "plain text" = false
  ∧ published (handle Sample.lib Sample.world More.call_payload_not_json)
    = [js ("{'url':'plain text','error':'Error unmarshalling input JSON',"
           +:+ "'responseTime':0,'requestTime':'1738712251643659490ns',"
           +:+ "'statusCode':0}")].
Proof.
  assert (H3 : json_Unmarshal (decode_PubSubMessage Sample.lib)
                 (Sample.envelope "cGxhaW4gdGV4dA==")
               = Ok (Sample.message_with "cGxhaW4gdGV4dA=="))
    by (vm_compute; reflexivity).
  assert (H4 : decodeBase64
                 (PubSubMessage.Data
                    (PubSubMessage.Message (Sample.message_with "cGxhaW4gdGV4dA==")))
               = Ok "plain text") by reflexivity.
  destruct (bad_payload_is_reported Sample.lib Sample.world
              More.call_payload_not_json _ _ _ eq_refl eq_refl H3 H4
              (or_introl eq_refl)) as (Hpub & _).
  split_and!; [reflexivity | reflexivity | assumption | reflexivity | reflexivity
              | assumption].
Defined.

(** X5.  Every inbound call publishes exactly one message, hands at most
    one request to the HTTP client, and writes its status exactly once. *)
Theorem one_message_per_call (L : GoLib) (W : World) (r : Inbound) :
  length (published (handle L W r)) = 1%nat
  ∧ (length (dispatched (handle L W r)) ≤ 1)%nat
  ∧ length (written (handle L W r)) = 1%nat.
Proof.
  destruct (handle_summary L W r) as (m & reqs & [Hpub Hdis Hw] & Hlen).
  by rewrite Hpub, Hdis, Hw.
Qed.

Lemma errorPayload_failure_shaped (L : GoLib) (errorMsg url : string) (now : Time) :
  errorMsg ≠ EmptyString →
  failure_shaped (errorPayload L errorMsg url now)
  ∧ member "error" (OutputPayload_members (errorPayload L errorMsg url now))
    = Some (JString errorMsg).
Proof.
  intros Hne. split; [by repeat split|].
  rewrite member_error. simpl. by destruct errorMsg.
Qed.

Lemma Fetched_success_shaped (L : GoLib) (url : string) (resp : http_Response)
    (t0 t1 : Time) (body : string) (out : OutputPayload.t) :
  isValidURL url = true →
  Fetched L url resp t0 t1 body out →
  success_shaped out ∧ member "error" (OutputPayload_members out) = None.
Proof.
  intros Hvalid [Hu He Hh Hj Hb _ _ _]. split.
  - repeat split.
    + exact He.
    + rewrite Hh. discriminate.
    + by rewrite Hu.
    + rewrite Hj, Hb. destruct (json_Valid body); auto.
  - by rewrite member_error, He.
Qed.

(** A call that does not decode to a request ends in one of the first
    five failures. *)
Lemma handle_undecoded (L : GoLib) (W : World) (r : Inbound) :
  decoded_request L r = None →
  ∃ errorMsg url,
    errorMsg ≠ EmptyString
    ∧ Adds (handle L W r) [errorJSON L W errorMsg url 0] [] [http_StatusOK].
Proof.
  intros Hdec. pose proof (handle_stages L W r) as Hcase.
  unfold decoded_request in Hdec.
  destruct (negb (String.eqb (Method r) http_MethodPost));
    [eexists _, _; split; [|exact Hcase]; discriminate|].
  destruct (io_ReadAll (Body r)) as [body|];
    [|eexists _, _; split; [|exact Hcase]; discriminate].
  destruct (json_Unmarshal (decode_PubSubMessage L) body) as [msg|];
    [|eexists _, _; split; [|exact Hcase]; discriminate].
  cbv zeta in Hcase.
  destruct (decodeBase64 _) as [data|];
    [|eexists _, _; split; [|exact Hcase]; discriminate].
  destruct (json_Unmarshal (decode_InputPayload L) data) as [input|];
    [done | eexists _, _; split; [|exact Hcase]; discriminate].
Qed.

(** X6.  The message published for a call is always the encoding of a
    payload of one of two shapes, never a mix: a failure (an error text,
    written as the [error] member, and no headers, body, duration or
    status) or a success (no [error] member, the headers, at most one of
    the two body fields, and a URL that passed the check). *)
Theorem outcome_is_failure_or_success (L : GoLib) (W : World) (r : Inbound) :
  ∃ o,
    published (handle L W r) = [messageJSON L o]
    ∧ ((failure_shaped o
        ∧ member "error" (OutputPayload_members o)
          = Some (JString (OutputPayload.Error o)))
       ∨ (success_shaped o ∧ member "error" (OutputPayload_members o) = None)).
Proof.
  assert (Hfail : ∀ errorMsg url k,
    errorMsg ≠ EmptyString →
    published (handle L W r) = [errorJSON L W errorMsg url k] →
    ∃ o,
      published (handle L W r) = [messageJSON L o]
      ∧ ((failure_shaped o
          ∧ member "error" (OutputPayload_members o)
            = Some (JString (OutputPayload.Error o)))
         ∨ (success_shaped o ∧ member "error" (OutputPayload_members o) = None))).
  { intros errorMsg url k Hne Hpub.
    exists (errorPayload L errorMsg url (clock_at W k)). split; [exact Hpub|].
    left. by apply errorPayload_failure_shaped. }
  destruct (decoded_request L r) as [input|] eqn:Hdec.
  2:{ destruct (handle_undecoded L W r Hdec) as (errorMsg & url & Hne & [Hpub _ _]).
      eapply Hfail; [exact Hne | exact Hpub]. }
  pose proof (handle_decoded L W r input Hdec) as Hcase. cbv zeta in Hcase.
  destruct (isValidURL (InputPayload.URL input)) eqn:Hvalid; simpl in Hcase.
  2:{ destruct Hcase as [Hpub _ _]. eapply Hfail; [|exact Hpub]. discriminate. }
  destruct (http_NewRequest L "GET" _) as [req|].
  2:{ destruct Hcase as [Hpub _ _]. eapply Hfail; [|exact Hpub]. discriminate. }
  destruct (client_Do W _) as [resp|].
  2:{ destruct Hcase as [Hpub _ _]. eapply Hfail; [|exact Hpub]. discriminate. }
  destruct (io_ReadAll (io_LimitReader _ _)) as [body|].
  2:{ destruct Hcase as [Hpub _ _]. eapply Hfail; [|exact Hpub]. discriminate. }
  destruct Hcase as (out & Hout & [Hpub _ _]).
  exists out. split; [exact Hpub|]. right.
  by eapply Fetched_success_shaped.
Qed.

(** X7.  publishMessage sends the encoded message to the topic exactly when
    RESPONSE_PUBSUB and GOOGLE_CLOUD_PROJECT are both set and the client can
    be created: then it publishes once, to that project and topic, with the
    attribute [type] set to [request], and writes the outcome of the publish
    to the log, not the message.  In every other case it touches no topic
    and ends by writing the message to the log.  It never reads the clock. *)
Theorem publishMessage_sink (L : GoLib) (W : World) (o : OutputPayload.t)
    (st : State) :
  ∃ evs,
    publishMessage L W o st = (tt, mkState (trace st ++ evs) (clock_reads st))
    ∧ if topic_configured W then
        ∃ outcome,
          evs = [EvTopicPublish (os_Getenv W "GOOGLE_CLOUD_PROJECT")
                   (os_Getenv W "RESPONSE_PUBSUB") (messageJSON L o)
                   [("type", "request")];
                 outcome]
          ∧ is_log outcome ∧ published_by outcome = []
      else
        Forall is_log evs
        ∧ last evs = Some (EvLog "Publish Message: %s" [LStr (messageJSON L o)]).
Proof.
  unfold publishMessage, topic_configured, json_Marshal_OutputPayload, log_Printf.
  fold (messageJSON L o).
  unfold mbind, M_bind, emit. simpl.
  destruct (String.eqb (os_Getenv W "RESPONSE_PUBSUB") EmptyString); simpl.
  { eexists [_]. split; [reflexivity|]. split; [by repeat constructor | done]. }
  destruct (String.eqb (os_Getenv W "GOOGLE_CLOUD_PROJECT") EmptyString); simpl.
  { eexists [_; _]. split; [do 2 f_equal; exact (eq_sym (app_assoc (trace st) [_] [_]))|].
    split; [by repeat constructor | done]. }
  destruct (pubsub_NewClient W _).
  { eexists [_; _]. split; [do 2 f_equal; exact (eq_sym (app_assoc (trace st) [_] [_]))|].
    split; [by repeat constructor | done]. }
  destruct (pubsub_Publish W _ _ _).
  - eexists [_; _]. split; [do 2 f_equal; exact (eq_sym (app_assoc (trace st) [_] [_]))|]. by eexists.
  - eexists [_; _]. split; [do 2 f_equal; exact (eq_sym (app_assoc (trace st) [_] [_]))|]. by eexists.
Qed.

(** A call that does not decode dispatches nothing. *)
Lemma http_NewRequest_Ok (L : GoLib) (method url : string) (req : http_Request) :
  http_NewRequest L method url = Ok req →
  req = mkRequest method url ∅
  ∧ stringContainsCTLByte (before_fragment url) = false.
Proof.
  unfold http_NewRequest.
  destruct (stringContainsCTLByte _); [done|].
  destruct (url_parse_rest L url); [done|]. by intros [= <-].
Qed.

(** X8.  A request is handed to the HTTP client only for a call that
    decoded to an input whose URL passed the check and has no control
    character before its fragment: it is the GET request that
    [http.NewRequest] built from that URL string, with the User-Agent
    [http-response-collector] set as its only header. *)
Theorem dispatched_request_shape (L : GoLib) (W : World) (r : Inbound)
    (req : http_Request) :
  req ∈ dispatched (handle L W r) →
  ∃ input built,
    decoded_request L r = Some input
    ∧ isValidURL (InputPayload.URL input) = true
    ∧ stringContainsCTLByte (before_fragment (InputPayload.URL input)) = false
    ∧ http_NewRequest L "GET" (InputPayload.URL input) = Ok built
    ∧ req = withUserAgent built
    ∧ dispatched (handle L W r) = [req]
    ∧ req_Method req = "GET"
    ∧ req_Header req = {["User-Agent" := ["http-response-collector"]]}.
Proof.
  intros Hin.
  destruct (decoded_request L r) as [input|] eqn:Hdec.
  2:{ destruct (handle_undecoded L W r Hdec) as (? & ? & _ & [_ Hdis _]).
      rewrite Hdis in Hin. by apply elem_of_nil in Hin. }
  pose proof (handle_decoded L W r input Hdec) as Hcase. cbv zeta in Hcase.
  exists input.
  destruct (isValidURL (InputPayload.URL input)); simpl in Hcase.
  2:{ destruct Hcase as [_ Hdis _]. rewrite Hdis in Hin. by apply elem_of_nil in Hin. }
  destruct (http_NewRequest L "GET" _) as [req'|] eqn:Hreq.
  2:{ destruct Hcase as [_ Hdis _]. rewrite Hdis in Hin. by apply elem_of_nil in Hin. }
  exists req'.
  destruct (http_NewRequest_Ok _ _ _ _ Hreq) as [Hbuilt Hctl].
  assert (Hdis : dispatched (handle L W r) = [withUserAgent req']).
  { destruct (client_Do W _) as [resp|]; [|by destruct Hcase].
    destruct (io_ReadAll (io_LimitReader _ _)) as [body|]; [|by destruct Hcase].
    by destruct Hcase as (out & _ & [_ Hdis _]). }
  rewrite Hdis in Hin. apply list_elem_of_singleton in Hin as ->.
  split_and!; try done. all: by rewrite Hbuilt.
Qed.

Lemma dispatched_request_shape_witness :
  withUserAgent (mkRequest "GET" Sample.json_url ∅)
    ∈ dispatched (handle Sample.lib Sample.world Sample.call_json)
  ∧ ∃ input built,
      decoded_request Sample.lib Sample.call_json = Some input
      ∧ isValidURL (InputPayload.URL input) = true
      ∧ stringContainsCTLByte (before_fragment (InputPayload.URL input)) = false
      ∧ http_NewRequest Sample.lib "GET" (InputPayload.URL input) = Ok built
      ∧ withUserAgent (mkRequest "GET" Sample.json_url ∅) = withUserAgent built
      ∧ dispatched (handle Sample.lib Sample.world Sample.call_json)
        = [withUserAgent (mkRequest "GET" Sample.json_url ∅)]
      ∧ req_Method (withUserAgent (mkRequest "GET" Sample.json_url ∅)) = "GET"
      ∧ req_Header (withUserAgent (mkRequest "GET" Sample.json_url ∅))
        = {["User-Agent" := ["http-response-collector"]]}.
Proof.
  assert (Hin : withUserAgent (mkRequest "GET" Sample.json_url ∅)
                  ∈ dispatched (handle Sample.lib Sample.world Sample.call_json)).
  { replace (dispatched (handle Sample.lib Sample.world Sample.call_json))
      with [withUserAgent (mkRequest "GET" Sample.json_url ∅)]
      by (vm_compute; reflexivity).
    apply list_elem_of_singleton. reflexivity. }
  split; [exact Hin|].
  exact (dispatched_request_shape Sample.lib Sample.world Sample.call_json _ Hin).
Defined.

Lemma Duration_Milliseconds_bounds (t u : Time) :
  -9223372036854 ≤ Duration_Milliseconds (time_Sub t u) ≤ 9223372036854
  ∧ (mono u ≤ mono t → 0 ≤ Duration_Milliseconds (time_Sub t u))
  ∧ (minDuration ≤ mono t - mono u ≤ maxDuration →
     Duration_Milliseconds (time_Sub t u) = Z.quot (mono t - mono u) 1000000).
Proof.
  assert (Hsub : minDuration ≤ time_Sub t u ≤ maxDuration
                 ∧ (mono u ≤ mono t → 0 ≤ time_Sub t u)
                 ∧ (minDuration ≤ mono t - mono u ≤ maxDuration →
                    time_Sub t u = mono t - mono u)).
  { unfold time_Sub. cbv zeta.
    destruct (mono t - mono u <? minDuration) eqn:Hlo;
      [apply Z.ltb_lt in Hlo | apply Z.ltb_ge in Hlo].
    - unfold minDuration, maxDuration in *. lia.
    - destruct (maxDuration <? mono t - mono u) eqn:Hhi;
        [apply Z.ltb_lt in Hhi | apply Z.ltb_ge in Hhi];
        unfold minDuration, maxDuration in *; lia. }
  destruct Hsub as (Hrange & Hpos & Hexact).
  unfold Duration_Milliseconds.
  pose proof (Z.quot_rem' (time_Sub t u) 1000000) as Hqr.
  pose proof (Z.rem_bound_abs (time_Sub t u) 1000000 ltac:(lia)) as Hrem.
  assert (Hsign : 0 ≤ time_Sub t u ∧ 0 ≤ Z.rem (time_Sub t u) 1000000
                  ∨ time_Sub t u ≤ 0 ∧ Z.rem (time_Sub t u) 1000000 ≤ 0).
  { destruct (Z.le_ge_cases 0 (time_Sub t u)).
    - left. split; [done|]. apply Z.rem_nonneg; lia.
    - right. split; [done|]. apply Z.rem_nonpos; lia. }
  unfold minDuration, maxDuration in *.
  split_and!.
  - lia.
  - lia.
  - intros Hmono. apply Z.quot_pos; [auto | lia].
  - intros Hin. by rewrite Hexact.
Qed.

(** X9.  A response of any status is a success for fetchURL: the payload
    carries the status code as received, the requested URL and no error.
    A successful fetch reads the clock exactly twice; its request time is
    the wall clock of the first reading, and its response time the
    difference of the two monotonic readings in whole milliseconds, rounded
    towards zero: at most 9223372036854 in absolute value, and not negative
    when the monotonic clock does not run backwards. *)
Theorem success_metadata (L : GoLib) (W : World) (url : string) (st st' : State)
    (req : http_Request) (resp : http_Response) (out : OutputPayload.t) :
  http_NewRequest L "GET" url = Ok req →
  client_Do W (withUserAgent req) = Ok resp →
  fetchURL L W url st = (Ok out, st') →
  let t0 := clock_at W (clock_reads st) in
  let t1 := clock_at W (S (clock_reads st)) in
  OutputPayload.StatusCode out = resp_StatusCode resp
  ∧ OutputPayload.URL out = url
  ∧ OutputPayload.Error out = EmptyString
  ∧ OutputPayload.RequestTime out = time_Format_RFC3339Nano L (wall t0)
  ∧ OutputPayload.ResponseTime out = Duration_Milliseconds (time_Sub t1 t0)
  ∧ -9223372036854 ≤ OutputPayload.ResponseTime out ≤ 9223372036854
  ∧ (mono t0 ≤ mono t1 → 0 ≤ OutputPayload.ResponseTime out)
  ∧ (minDuration ≤ mono t1 - mono t0 ≤ maxDuration →
     OutputPayload.ResponseTime out = Z.quot (mono t1 - mono t0) 1000000)
  ∧ clock_reads st' = (clock_reads st + 2)%nat
  ∧ trace st' = trace st ++ [EvDo (withUserAgent req)].
Proof.
  intros Hreq Hresp Hfetch t0 t1.
  pose proof (runs_fetchURL L W url st) as Hrun.
  rewrite Hreq, Hresp in Hrun.
  destruct (io_ReadAll (io_LimitReader (resp_Body resp) bodyLimit)) as [body|e].
  2:{ unfold runs in Hrun. rewrite Hrun in Hfetch. discriminate. }
  destruct Hrun as (out' & Hrun & Hout). unfold runs in Hrun.
  rewrite Hrun in Hfetch. injection Hfetch as <- <-.
  destruct Hout as [Hu He _ _ _ Hrt Hrq Hsc].
  destruct (Duration_Milliseconds_bounds t1 t0) as (Hb & Hpos & Hexact).
  fold t0 t1 in Hrt, Hrq. rewrite Hrt.
  split_and!; try done; apply Hb.
Qed.

Lemma success_metadata_witness :
  http_NewRequest Sample.lib "GET" More.missing_url
  = Ok (mkRequest "GET" More.missing_url ∅)
  ∧ client_Do More.world (withUserAgent (mkRequest "GET" More.missing_url ∅))
    = Ok More.missing_response
  ∧ fetchURL Sample.lib More.world More.missing_url initial
    = (Ok More.missing_output,
       mkState [EvDo (withUserAgent (mkRequest "GET" More.missing_url ∅))] 2)
  ∧ OutputPayload.StatusCode More.missing_output = 404
  ∧ OutputPayload.ResponseTime More.missing_output
    = Duration_Milliseconds (time_Sub (Sample.clock 1) (Sample.clock 0)).
Proof.
  assert (H1 : http_NewRequest Sample.lib "GET" More.missing_url
               = Ok (mkRequest "GET" More.missing_url ∅)) by reflexivity.
  assert (H2 : client_Do More.world
                 (withUserAgent (mkRequest "GET" More.missing_url ∅))
               = Ok More.missing_response) by reflexivity.
  assert (H3 : fetchURL Sample.lib More.world More.missing_url initial
               = (Ok More.missing_output,
                  mkState [EvDo (withUserAgent (mkRequest "GET" More.missing_url ∅))]
                    2)) by (vm_compute; reflexivity).
  destruct (success_metadata Sample.lib More.world More.missing_url initial _ _ _ _
              H1 H2 H3) as (Hsc & _ & _ & _ & Hrt & _).
  split_and!; assumption.
Defined.

(** ** Further properties of decodeBase64 *)

Lemma is_newline_decodeMap (c : ascii) :
  is_newline c = true → decodeMap c = None.
Proof.
  unfold is_newline. rewrite orb_true_iff, !Ascii.eqb_eq. by intros [-> | ->].
Qed.

Lemma strip_skip_newlines (s : string) :
  strip_newlines (skip_newlines s) = strip_newlines s.
Proof.
  induction s as [|c s IH]; [done|]. simpl.
  destruct (is_newline c) eqn:Hc; [done|]. simpl. by rewrite Hc.
Qed.

Lemma skip_strip_newlines (s : string) :
  skip_newlines (strip_newlines s) = strip_newlines s.
Proof.
  induction s as [|c s IH]; [done|]. simpl.
  destruct (is_newline c) eqn:Hc; [done|]. simpl. by rewrite Hc.
Qed.

Lemma skip_newlines_head (s : string) (c : ascii) (r : string) :
  skip_newlines s = String c r → is_newline c = false.
Proof.
  induction s as [|c' s IH]; [done|]. simpl.
  destruct (is_newline c') eqn:Hc; [done|]. by intros [= <- <-].
Qed.

(** What follows a padding character, seen through the line breaks. *)
Lemma skip_newlines_strip_cases (s : string) :
  match skip_newlines s with
  | EmptyString => strip_newlines s = EmptyString
  | String c r =>
      is_newline c = false ∧ strip_newlines s = String c (strip_newlines r)
  end.
Proof.
  pose proof (strip_skip_newlines s) as Hstrip.
  destruct (skip_newlines s) as [|c r] eqn:Hskip; [done|].
  pose proof (skip_newlines_head s c r Hskip) as Hc.
  split; [done|]. rewrite <-Hstrip. simpl. by rewrite Hc.
Qed.

Lemma base64_decode_strip (s : string) (dbuf : list Z) (dst : string) :
  base64_decode s dbuf dst = base64_decode (strip_newlines s) dbuf dst.
Proof.
  revert dbuf dst. induction s as [|c s IH]; intros dbuf dst; [done|].
  cbn [strip_newlines]. destruct (is_newline c) eqn:Hnl.
  { cbn [base64_decode]. by rewrite (is_newline_decodeMap c Hnl), Hnl. }
  cbn [base64_decode]. destruct (decodeMap c) as [out|].
  { destruct (length (dbuf ++ [out]) =? 4)%nat; apply IH. }
  rewrite Hnl. destruct (negb (Ascii.eqb c padChar)); [done|].
  rewrite (skip_strip_newlines s).
  pose proof (skip_newlines_strip_cases s) as Hs.
  destruct (length dbuf) as [|[|[|n]]]; [done | done | |].
  - destruct (skip_newlines s) as [|c2 s2].
    + by rewrite Hs.
    + destruct Hs as [Hc2 ->].
      destruct (negb (Ascii.eqb c2 padChar)); [done|].
      pose proof (skip_newlines_strip_cases s2) as Hs2.
      rewrite (skip_strip_newlines s2).
      destruct (skip_newlines s2) as [|c3 s3].
      * by rewrite Hs2.
      * by destruct Hs2 as [_ ->].
  - destruct (skip_newlines s) as [|c2 s2].
    + by rewrite Hs.
    + by destruct Hs as [_ ->].
Qed.

(** X10.  decodeBase64 ignores line feeds and carriage returns wherever
    they stand in the blob: it succeeds on a blob exactly when it succeeds
    on the blob without them, and then with the same decoded bytes. *)
Theorem decodeBase64_ignores_newlines (s : string) :
  is_ok (decodeBase64 s) = is_ok (decodeBase64 (strip_newlines s))
  ∧ ∀ decoded,
      decodeBase64 s = Ok decoded ↔ decodeBase64 (strip_newlines s) = Ok decoded.
Proof.
  unfold decodeBase64, base64_DecodeString.
  by rewrite <-(base64_decode_strip s [] EmptyString).
Qed.

Lemma has_foreign_skip_newlines (s : string) :
  has_foreign_byte s = true →
  ∃ c r, skip_newlines s = String c r ∧ has_foreign_byte (String c r) = true.
Proof.
  induction s as [|c s IH]; [done|]. simpl. intros Hf.
  destruct (is_newline c) eqn:Hnl; [|by exists c, s].
  apply IH. unfold foreign_byte in Hf.
  rewrite (is_newline_decodeMap c Hnl), Hnl in Hf. done.
Qed.

Lemma base64_decode_foreign (s : string) (dbuf : list Z) (dst : string) :
  has_foreign_byte s = true →
  base64_decode s dbuf dst = Err CorruptInputError.
Proof.
  revert dbuf dst. induction s as [|c s IH]; intros dbuf dst; [done|].
  cbn [has_foreign_byte base64_decode]. unfold foreign_byte.
  destruct (decodeMap c) as [out|].
  { simpl. intros Hf. destruct (length (dbuf ++ [out]) =? 4)%nat; by apply IH. }
  destruct (is_newline c); [simpl; by apply IH|].
  destruct (negb (Ascii.eqb c padChar)); [done|]. simpl. intros Hf.
  destruct (has_foreign_skip_newlines s Hf) as (c2 & s2 & -> & Hf2).
  destruct (length dbuf) as [|[|[|n]]]; [done | done | | done].
  destruct (negb (Ascii.eqb c2 padChar)) eqn:Hpad; [done|].
  simpl in Hf2. unfold foreign_byte in Hf2.
  destruct (decodeMap c2); [|rewrite Hpad, andb_false_r in Hf2];
    simpl in Hf2;
    by destruct (has_foreign_skip_newlines s2 Hf2) as (c3 & s3 & -> & _).
Qed.

(** X11.  decodeBase64 fails on every blob that holds a byte outside the
    alphabet that is neither the padding character nor a line break (a
    space, or the [-] and [_] of the URL alphabet), wherever it stands: no
    such byte is skipped. *)
Theorem decodeBase64_rejects_foreign_bytes (s : string) :
  has_foreign_byte s = true → decodeBase64 s = Err CorruptInputError.
Proof.
  intros Hf. unfold decodeBase64, base64_DecodeString.
  by rewrite base64_decode_foreign.
Qed.

Lemma decodeBase64_rejects_foreign_bytes_witness :
  has_foreign_byte "eyJ1cmwiOiJodHRwOi8vZXhhbXBsZS5jb20_YT0xIn0=" = true
  ∧ decodeBase64 "eyJ1cmwiOiJodHRwOi8vZXhhbXBsZS5jb20_YT0xIn0="
    = Err CorruptInputError.
Proof.
  split; [reflexivity|].
  apply decodeBase64_rejects_foreign_bytes. reflexivity.
Defined.

(** *** Encoding and decoding again *)

Lemma land_shiftl_low (a b k : Z) :
  0 ≤ k → 0 ≤ b < 2 ^ k → Z.land (Z.shiftl a k) b = 0.
Proof.
  intros Hk Hb. apply Z.bits_inj'. intros n Hn.
  rewrite Z.land_spec, Z.bits_0.
  destruct (Z.lt_ge_cases n k) as [Hlt | Hge].
  - by rewrite Z.shiftl_spec_low.
  - destruct (Z.eq_dec b 0) as [-> | Hb0];
      [by rewrite Z.bits_0, andb_false_r|].
    rewrite (Z.bits_above_log2 b n), andb_false_r; [done | lia |].
    assert (Z.log2 b < k) by (apply Z.log2_lt_pow2; lia). lia.
Qed.

Lemma lor_shiftl_add (a b k : Z) :
  0 ≤ k → 0 ≤ b < 2 ^ k → Z.lor (Z.shiftl a k) b = a * 2 ^ k + b.
Proof.
  intros Hk Hb. pose proof (land_shiftl_low a b k Hk Hb) as Hland.
  rewrite <-Z.lxor_lor, <-Z.add_nocarry_lxor by done.
  by rewrite Z.shiftl_mul_pow2.
Qed.

Lemma shiftl_add_shiftl (a b j k : Z) :
  0 ≤ j → 0 ≤ k →
  a * 2 ^ (j + k) + b * 2 ^ k = Z.shiftl (a * 2 ^ j + b) k.
Proof.
  intros Hj Hk. rewrite Z.shiftl_mul_pow2, Z.pow_add_r by done. lia.
Qed.

Lemma quantum_val_sum (d0 d1 d2 d3 : Z) :
  0 ≤ d1 < 64 → 0 ≤ d2 < 64 → 0 ≤ d3 < 64 →
  quantum_val [d0; d1; d2; d3] = d0 * 262144 + d1 * 4096 + d2 * 64 + d3.
Proof.
  intros H1 H2 H3. unfold quantum_val. simpl nth.
  rewrite (Z.shiftl_mul_pow2 d1 12), (Z.shiftl_mul_pow2 d2 6) by lia.
  rewrite (lor_shiftl_add d0 (d1 * 2 ^ 12) 18) by lia.
  replace (d0 * 2 ^ 18 + d1 * 2 ^ 12) with (Z.shiftl (d0 * 2 ^ 6 + d1) 12)
    by (rewrite Z.shiftl_mul_pow2; lia).
  rewrite (lor_shiftl_add _ (d2 * 2 ^ 6) 12) by lia.
  replace ((d0 * 2 ^ 6 + d1) * 2 ^ 12 + d2 * 2 ^ 6)
    with (Z.shiftl ((d0 * 2 ^ 6 + d1) * 2 ^ 6 + d2) 6)
    by (rewrite Z.shiftl_mul_pow2; lia).
  rewrite (lor_shiftl_add _ d3 6) by lia. lia.
Qed.

Lemma group_val_sum (x y z : Z) :
  0 ≤ y < 256 → 0 ≤ z < 256 → group_val x y z = x * 65536 + y * 256 + z.
Proof.
  intros Hy Hz. unfold group_val.
  rewrite (Z.shiftl_mul_pow2 y 8) by lia.
  rewrite (lor_shiftl_add x (y * 2 ^ 8) 16) by lia.
  replace (x * 2 ^ 16 + y * 2 ^ 8) with (Z.shiftl (x * 2 ^ 8 + y) 8)
    by (rewrite Z.shiftl_mul_pow2; lia).
  rewrite (lor_shiftl_add _ z 8) by lia. lia.
Qed.

Lemma land_63 (v : Z) : Z.land v 63 = v mod 64.
Proof. change 63 with (Z.ones 6). by rewrite Z.land_ones. Qed.

Lemma byte_val_range (c : ascii) : 0 ≤ byte_val c < 256.
Proof. unfold byte_val. pose proof (N_ascii_bounded c). lia. Qed.

Lemma byte_of_val (c : ascii) (v : Z) : v mod 256 = byte_val c → byte_of v = c.
Proof.
  intros Hv. unfold byte_of. rewrite Hv. unfold byte_val.
  by rewrite N2Z.id, ascii_N_embedding.
Qed.

Lemma decodeMap_encode_digit (d : Z) :
  0 ≤ d < 64 → decodeMap (encode_digit d) = Some d.
Proof.
  intros Hd. unfold encode_digit.
  assert (Hn : ∃ n, (n < 64)%nat ∧ d = Z.of_nat n)
    by (exists (Z.to_nat d); lia).
  destruct Hn as (n & Hn & ->). rewrite Nat2Z.id.
  do 64 (destruct n as [|n]; [reflexivity|]). lia.
Qed.

Lemma digit_of_range (val k : Z) : 0 ≤ digit_of val k < 64.
Proof. unfold digit_of. rewrite land_63. apply Z.mod_pos_bound. lia. Qed.

Lemma digit_of_div (val k : Z) : 0 ≤ k → digit_of val k = (val / 2 ^ k) mod 64.
Proof. intros Hk. unfold digit_of. by rewrite land_63, Z.shiftr_div_pow2. Qed.

(** The digits of a group give the group back; so do the first two or
    three of them when the bits of the others are zero. *)
Lemma quantum_val_digits (val : Z) :
  0 ≤ val < 16777216 →
  quantum_val [digit_of val 18; digit_of val 12; digit_of val 6; digit_of val 0]
  = val.
Proof.
  intros Hval.
  rewrite quantum_val_sum by apply digit_of_range.
  rewrite !digit_of_div by lia.
  change (2 ^ 18) with 262144. change (2 ^ 12) with 4096.
  change (2 ^ 6) with 64. change (2 ^ 0) with 1.
  Z.div_mod_to_equations. lia.
Qed.

Lemma quantum_val_digits3 (val : Z) :
  0 ≤ val < 16777216 → val mod 64 = 0 →
  quantum_val [digit_of val 18; digit_of val 12; digit_of val 6] = val.
Proof.
  intros Hval Hlow.
  change (quantum_val [digit_of val 18; digit_of val 12; digit_of val 6])
    with (quantum_val [digit_of val 18; digit_of val 12; digit_of val 6; 0]).
  rewrite quantum_val_sum by (apply digit_of_range || lia).
  rewrite !digit_of_div by lia.
  change (2 ^ 18) with 262144. change (2 ^ 12) with 4096. change (2 ^ 6) with 64.
  Z.div_mod_to_equations. lia.
Qed.

Lemma quantum_val_digits2 (val : Z) :
  0 ≤ val < 16777216 → val mod 4096 = 0 →
  quantum_val [digit_of val 18; digit_of val 12] = val.
Proof.
  intros Hval Hlow.
  change (quantum_val [digit_of val 18; digit_of val 12])
    with (quantum_val [digit_of val 18; digit_of val 12; 0; 0]).
  rewrite quantum_val_sum by (apply digit_of_range || lia).
  rewrite !digit_of_div by lia.
  change (2 ^ 18) with 262144. change (2 ^ 12) with 4096.
  Z.div_mod_to_equations. lia.
Qed.

Lemma group_bytes (a b c : ascii) :
  let val := group_val (byte_val a) (byte_val b) (byte_val c) in
  0 ≤ val < 16777216
  ∧ byte_of (Z.shiftr val 16) = a
  ∧ byte_of (Z.shiftr val 8) = b
  ∧ byte_of val = c.
Proof.
  pose proof (byte_val_range a). pose proof (byte_val_range b).
  pose proof (byte_val_range c). cbv zeta.
  rewrite group_val_sum by done. split_and!; try lia.
  - apply byte_of_val. rewrite Z.shiftr_div_pow2 by lia.
    change (2 ^ 16) with 65536. Z.div_mod_to_equations. lia.
  - apply byte_of_val. rewrite Z.shiftr_div_pow2 by lia.
    change (2 ^ 8) with 256. Z.div_mod_to_equations. lia.
  - apply byte_of_val. Z.div_mod_to_equations. lia.
Qed.

Lemma string_app_assoc (s1 s2 s3 : string) :
  (s1 +:+ s2) +:+ s3 = s1 +:+ (s2 +:+ s3).
Proof.
  induction s1 as [|c s1 IH]; [done|].
  unfold String.app in *. simpl. by rewrite IH.
Qed.

Lemma string_app_nil_r (s : string) : s +:+ EmptyString = s.
Proof.
  induction s as [|c s IH]; [done|]. unfold String.app in *. simpl. by rewrite IH.
Qed.

(** Three bytes at a time. *)
Lemma string_ind3 (P : string → Prop) :
  P EmptyString →
  (∀ a, P (String a EmptyString)) →
  (∀ a b, P (String a (String b EmptyString))) →
  (∀ a b c r, P r → P (String a (String b (String c r)))) →
  ∀ s, P s.
Proof.
  intros H0 H1 H2 H3 s.
  assert (H : P s ∧ (∀ a, P (String a s)) ∧ (∀ a b, P (String a (String b s)))).
  { induction s as [|c s (IHs & IH1 & IH2)]; [done|].
    split_and!; [apply IH1 | intros a; apply IH2 | intros a b; by apply H3]. }
  apply H.
Qed.

Lemma base64_decode_encode (s dst : string) :
  base64_decode (base64_EncodeToString s) [] dst = Ok (dst +:+ s).
Proof.
  revert dst. induction s as [|a|a b|a b c r IH] using string_ind3; intros dst.
  - simpl. by rewrite string_app_nil_r.
  - cbn [base64_EncodeToString]. unfold sextet. cbn [base64_decode].
    rewrite !decodeMap_encode_digit by apply digit_of_range. simpl.
    pose proof (group_bytes a "000" "000") as Hgroup.
    change (byte_val "000") with 0 in Hgroup. destruct Hgroup as (Hval & Ha & _).
    unfold quantum_bytes. rewrite quantum_val_digits2; [simpl; by rewrite Ha|done|].
    pose proof (byte_val_range a).
    rewrite group_val_sum by done. Z.div_mod_to_equations. lia.
  - cbn [base64_EncodeToString]. unfold sextet. cbn [base64_decode].
    rewrite !decodeMap_encode_digit by apply digit_of_range. simpl.
    pose proof (group_bytes a b "000") as Hgroup.
    change (byte_val "000") with 0 in Hgroup.
    destruct Hgroup as (Hval & Ha & Hb & _).
    unfold quantum_bytes.
    rewrite quantum_val_digits3; [simpl; by rewrite Ha, Hb|done|].
    pose proof (byte_val_range a). pose proof (byte_val_range b).
    rewrite group_val_sum by done. Z.div_mod_to_equations. lia.
  - cbn [base64_EncodeToString]. unfold sextet. cbn [base64_decode].
    rewrite !decodeMap_encode_digit by apply digit_of_range. simpl.
    destruct (group_bytes a b c) as (Hval & Ha & Hb & Hc).
    unfold quantum_bytes. rewrite quantum_val_digits by done.
    rewrite Ha, Hb, Hc. simpl. rewrite IH, string_app_assoc. done.
Qed.

(** X12.  decodeBase64 reads back what the standard encoder writes: for
    every byte string, decoding its padded base64 encoding succeeds and
    returns the string itself. *)
Theorem decodeBase64_EncodeToString (s : string) :
  decodeBase64 (base64_EncodeToString s) = Ok s.
Proof.
  unfold decodeBase64, base64_DecodeString. by rewrite base64_decode_encode.
Qed.

Example base64_EncodeToString_sample :
  base64_EncodeToString (js "{'url':'https://example.com'}")
  = "eyJ1cmwiOiJodHRwczovL2V4YW1wbGUuY29tIn0="
  ∧ base64_EncodeToString "a" = "YQ=="
  ∧ base64_EncodeToString "ab" = "YWI=".
Proof. by split_and!. Qed.

(** X13.  A call whose blob is the standard base64 encoding of a text that
    parses into an input is never stopped at the decoding stage: it decodes
    to that input and goes on with the validation of its URL. *)
Theorem encoded_payload_reaches_validation (L : GoLib) (W : World) (r : Inbound)
    (body data : string) (msg : PubSubMessage.t) (input : InputPayload.t) :
  Method r = "POST" →
  io_ReadAll (Body r) = Ok body →
  json_Unmarshal (decode_PubSubMessage L) body = Ok msg →
  PubSubMessage.Data (PubSubMessage.Message msg) = base64_EncodeToString data →
  json_Unmarshal (decode_InputPayload L) data = Ok input →
  decoded_request L r = Some input
  ∧ pubSubHandler L W r = handleInput L W input.
Proof.
  intros Hmethod Hread Hmsg Hblob Hinput.
  assert (Hdec : decoded_request L r = Some input).
  { unfold decoded_request, http_MethodPost.
    by rewrite Hmethod, Hread, Hmsg, Hblob, decodeBase64_EncodeToString, Hinput. }
  split; [exact Hdec | by apply pubSubHandler_decoded].
Qed.

Lemma encoded_payload_reaches_validation_witness :
  Method Sample.call_json = "POST"
  ∧ io_ReadAll (Body Sample.call_json)
    = Ok (Sample.envelope
            (base64_EncodeToString (js "{'url':'https://example.com/content.json'}")))
  ∧ decoded_request Sample.lib Sample.call_json
    = Some (InputPayload.mk Sample.json_url).
Proof.
  assert (H2 : io_ReadAll (Body Sample.call_json)
               = Ok (Sample.envelope
                       (base64_EncodeToString
                          (js "{'url':'https://example.com/content.json'}"))))
    by (vm_compute; reflexivity).
  assert (H3 : json_Unmarshal (decode_PubSubMessage Sample.lib)
                 (Sample.envelope
                    (base64_EncodeToString
                       (js "{'url':'https://example.com/content.json'}")))
               = Ok (Sample.message_with
                       (base64_EncodeToString
                          (js "{'url':'https://example.com/content.json'}"))))
    by (vm_compute; reflexivity).
  assert (H5 : json_Unmarshal (decode_InputPayload Sample.lib)
                 (js "{'url':'https://example.com/content.json'}")
               = Ok (InputPayload.mk Sample.json_url))
    by (vm_compute; reflexivity).
  destruct (encoded_payload_reaches_validation Sample.lib Sample.world
              Sample.call_json _ _ _ _ eq_refl H2 H3 eq_refl H5) as (Hdec & _).
  split_and!; [reflexivity | exact H2 | exact Hdec].
Defined.

(** ** Further properties of the published object and of the order of
    effects *)

(** X14.  Whatever the payload, the published object writes its members in
    the order of the fields of the struct, each at most once, and always
    writes [url], [responseTime], [requestTime] and [statusCode]. *)
Theorem payload_members_order (o : OutputPayload.t) :
  sublist (member_names (OutputPayload_members o))
    ["url"; "error"; "headers"; "responseBody"; "responseJson";
     "responseTime"; "requestTime"; "statusCode"]
  ∧ NoDup (member_names (OutputPayload_members o))
  ∧ member "url" (OutputPayload_members o) = Some (JString (OutputPayload.URL o))
  ∧ member "responseTime" (OutputPayload_members o)
    = Some (JNumber (OutputPayload.ResponseTime o))
  ∧ member "requestTime" (OutputPayload_members o)
    = Some (JString (OutputPayload.RequestTime o))
  ∧ member "statusCode" (OutputPayload_members o)
    = Some (JNumber (OutputPayload.StatusCode o)).
Proof.
  destruct o as [u e h rb rj rt rq sc]. unfold OutputPayload_members. simpl.
  assert (Hnodup : NoDup ["url"; "error"; "headers"; "responseBody";
                          "responseJson"; "responseTime"; "requestTime";
                          "statusCode"]).
  { apply (bool_decide_unpack _). by vm_compute. }
  assert (Hsub : sublist
            (member_names
               ([("url", JString u)] ++ omitempty "error" e ++ omitempty "headers" h
                ++ omitempty "responseBody" rb ++ omitempty "responseJson" rj
                ++ [("responseTime", JNumber rt); ("requestTime", JString rq);
                    ("statusCode", JNumber sc)]))
            ["url"; "error"; "headers"; "responseBody"; "responseJson";
             "responseTime"; "requestTime"; "statusCode"]).
  { destruct e, h, rb, rj; simpl;
      repeat first [apply sublist_skip | apply sublist_cons | apply sublist_nil];
      repeat constructor. }
  split_and!.
  - exact Hsub.
  - exact (sublist_NoDup _ _ Hnodup Hsub).
  - done.
  - by destruct e, h, rb, rj.
  - by destruct e, h, rb, rj.
  - by destruct e, h, rb, rj.
Qed.

Lemma exec_bind {A B} (m : M A) (f : A → M B) (st : State) :
  exec (m ≫= f) st = exec (f (m st).1) (m st).2.
Proof. unfold exec, mbind, M_bind. by destruct (m st). Qed.

Lemma last_WriteHeader (code : Z) (st : State) :
  last (trace (exec (WriteHeader code) st)) = Some (EvWriteHeader code).
Proof. unfold exec, WriteHeader, emit. simpl. apply last_snoc. Qed.

(** X15.  The status is the last thing the handler does: on every path the
    trace of a call ends with the write of 200, after the log lines, the
    fetch and the publication of the outcome. *)
Theorem acknowledgment_is_last (L : GoLib) (W : World) (r : Inbound) :
  last (handle L W r) = Some (EvWriteHeader 200).
Proof.
  unfold handle, pubSubHandler.
  repeat match goal with
         | |- context [if ?b then _ else _] => destruct b
         | |- context [match ?x with Ok _ => _ | Err _ => _ end] => destruct x
         end;
    rewrite ?exec_bind; try apply last_WriteHeader.
  all: repeat match goal with
         | |- context [match ?x with Ok _ => _ | Err _ => _ end] => destruct x
         end;
    rewrite ?exec_bind; apply last_WriteHeader.
Qed.

(** X16.  The object that encodes the response headers has exactly one
    member per header name of the response: as many members as the response
    has names, and no name twice. *)
Theorem headers_object_names_unique (header : gmap string (list string)) :
  NoDup (member_names (map_members (joinHeaders header)))
  ∧ length (map_members (joinHeaders header)) = size header.
Proof.
  unfold member_names, map_members. split.
  - rewrite <-list_fmap_compose.
    assert (Hperm : (fst ∘ (λ kv : string * string, (kv.1, JString kv.2)))
                      <$> merge_sort key_le (map_to_list (joinHeaders header))
                    ≡ₚ (map_to_list (joinHeaders header)).*1).
    { by rewrite merge_sort_Permutation. }
    rewrite Hperm. apply NoDup_fst_map_to_list.
  - rewrite length_fmap, (Permutation_length (merge_sort_Permutation _ _)).
    by rewrite length_map_to_list, joinHeaders_fmap, map_size_fmap.
Qed.
